(** * Online PPG recording of [ect.recording.Oximeter]

    A shallow embedding of the online part of the [Oximeter] class
    ([build/lib/ect/recording.py]): the frame check [check], the
    per-sample update [add_paquet], the re-synchronisation [setup] and
    the non-blocking drain [readInWaiting].

    Numbers.  Samples are Python [int]s, modelled as [Z].  The threshold
    [np.mean(w) + np.std(w)] is kept exactly, as the pair of its mean and
    its (population) variance, both rationals: its value is
    [mean + sqrt var].  Comparisons against it are decided exactly in [Q],
    and [thr_real] gives its value in [R].  Floating-point rounding is
    not modelled. *)

From Stdlib Require Import ZArith QArith Qreals Reals String List Bool Lia Lra.
From Stdlib Require DecimalString.
Import ListNotations.
Open Scope Z_scope.

(** ** Python helpers *)

(** The exceptions the embedded code can raise. *)
Inductive exn : Type :=
| AttributeError
| IndexError
| ZeroDivisionError
| ValueError.

Definition sum_Z (l : list Z) : Z := fold_right Z.add 0 l.

Definition sum_Q (l : list Q) : Q := fold_right Qplus 0%Q l.

(** [l[-k]] for [k >= 1]; [None] is Python's [IndexError]. *)
Definition py_neg_nth {A} (l : list A) (k : nat) : option A :=
  if Nat.leb k (length l) then nth_error l (length l - k) else None.

(** The slice [l[a:]] for an integer [a] (negative [a] counts from the end,
    and [l[-0:]] is the whole list). *)
Definition py_slice_from {A} (a : Z) (l : list A) : list A :=
  if 0 <=? a then skipn (Z.to_nat a) l
  else skipn (length l - Z.to_nat (- a)) l.

(** [np.diff]: the list of first differences. *)
Fixpoint np_diff (l : list Z) : list Z :=
  match l with
  | x :: ((y :: _) as t) => (y - x) :: np_diff t
  | _ => []
  end.

(** [np.where(l)[0]]: the indices of the nonzero entries. *)
Fixpoint np_where_from (i : Z) (l : list Z) : list Z :=
  match l with
  | [] => []
  | x :: t => if x =? 0 then np_where_from (i + 1) t
              else i :: np_where_from (i + 1) t
  end.

Definition np_where (l : list Z) : list Z := np_where_from 0 l.

(** ** Frame check ([Oximeter.check]) *)

Definition check (paquet : list Z) : bool :=
  if Nat.leb 5 (length paquet) then
    if nth 0 paquet 0 =? 1 then
      if (0 <=? nth 1 paquet 0) && (nth 1 paquet 0 <=? 255) then
        if (0 <=? nth 2 paquet 0) && (nth 2 paquet 0 <=? 255) then
          if nth 3 paquet 0 <=? 127 then
            if nth 4 paquet 0 =? sum_Z (firstn 4 paquet) mod 256 then true
            else false
          else false
        else false
      else false
    else false
  else false.

(** ** Threshold values *)

(** [np.mean(w) + np.std(w)] for a nonempty window, as mean and variance. *)
Record thr : Type := mk_thr { thr_mean : Q; thr_var : Q }.

Definition np_mean (w : list Z) : Q :=
  (inject_Z (sum_Z w) / inject_Z (Z.of_nat (length w)))%Q.

Definition np_var (w : list Z) : Q :=
  let m := np_mean w in
  (sum_Q (map (fun x => (inject_Z x - m) * (inject_Z x - m)) w)
   / inject_Z (Z.of_nat (length w)))%Q.

(** [None] is the [nan] numpy returns on an empty window. *)
Definition mean_plus_std (w : list Z) : option thr :=
  match w with
  | [] => None
  | _ => Some (mk_thr (np_mean w) (np_var w))
  end.

(** The real value [mean + sqrt var] of a threshold. *)
Definition thr_real (t : thr) : R :=
  (Q2R (thr_mean t) + sqrt (Q2R (thr_var t)))%R.

(** [paquet > threshold]: [v > m + sqrt r] decided exactly as
    [0 < v - m /\ r < (v - m)^2]; a comparison with [nan] is false. *)
Definition gt_thr (v : Z) (t : option thr) : bool :=
  match t with
  | None => false
  | Some t =>
      let d := (inject_Z v - thr_mean t)%Q in
      negb (Qle_bool d 0) && negb (Qle_bool (d * d) (thr_var t))
  end.

(** ** The session *)

Record Oximeter : Type := mk_oxi {
  lag : Z;
  sfreq : Z;
  dist : Z;
  instant_rr : list Q;
  recording : list Z;
  times : list Q;
  threshold : list (option thr);
  diff : list Z;
  peaks : list Z;
  (** [None] or the dict of channels, as its (key, list) entries in order *)
  channels : option (list (string * list Z));
  (** the attribute [triggers], which [__init__] never creates: [None]
      while it does not exist *)
  triggers : option (list Z)
}.

Definition set_lag (s : Oximeter) (x : Z) : Oximeter :=
  mk_oxi x (sfreq s) (dist s) (instant_rr s) (recording s) (times s)
    (threshold s) (diff s) (peaks s) (channels s) (triggers s).
Definition set_instant_rr (s : Oximeter) (x : list Q) : Oximeter :=
  mk_oxi (lag s) (sfreq s) (dist s) x (recording s) (times s)
    (threshold s) (diff s) (peaks s) (channels s) (triggers s).
Definition set_recording (s : Oximeter) (x : list Z) : Oximeter :=
  mk_oxi (lag s) (sfreq s) (dist s) (instant_rr s) x (times s)
    (threshold s) (diff s) (peaks s) (channels s) (triggers s).
Definition set_times (s : Oximeter) (x : list Q) : Oximeter :=
  mk_oxi (lag s) (sfreq s) (dist s) (instant_rr s) (recording s) x
    (threshold s) (diff s) (peaks s) (channels s) (triggers s).
Definition set_threshold (s : Oximeter) (x : list (option thr)) : Oximeter :=
  mk_oxi (lag s) (sfreq s) (dist s) (instant_rr s) (recording s) (times s)
    x (diff s) (peaks s) (channels s) (triggers s).
Definition set_diff (s : Oximeter) (x : list Z) : Oximeter :=
  mk_oxi (lag s) (sfreq s) (dist s) (instant_rr s) (recording s) (times s)
    (threshold s) x (peaks s) (channels s) (triggers s).
Definition set_peaks (s : Oximeter) (x : list Z) : Oximeter :=
  mk_oxi (lag s) (sfreq s) (dist s) (instant_rr s) (recording s) (times s)
    (threshold s) (diff s) x (channels s) (triggers s).
Definition set_triggers (s : Oximeter) (x : option (list Z)) : Oximeter :=
  mk_oxi (lag s) (sfreq s) (dist s) (instant_rr s) (recording s) (times s)
    (threshold s) (diff s) (peaks s) (channels s) x.

(** [__init__(self, serial, sfreq=75, add_channels=None)] run on an object
    whose attribute [triggers] is [trig] ([__init__] leaves it as it is).
    The argument [add_channels] only matters through [is None]: the code
    overwrites it with [5].  [int(sfreq * 0.2)] is [sfreq / 5] truncated
    toward zero. *)
Definition init_fields (trig : option (list Z)) (sfreq0 : Z)
    (add_channels : option Z) : Oximeter :=
  mk_oxi 0 sfreq0 (Z.quot sfreq0 5) [] [] [] [] [] []
    (match add_channels with
     | Some _ => Some [("Channel_0", []); ("Channel_1", []); ("Channel_2", []);
                       ("Channel_3", []); ("Channel_4", [])]%string
     | None => None
     end)
    trig.

(** [Oximeter(serial, sfreq, add_channels)]: a new object. *)
Definition Oximeter_new (sfreq0 : Z) (add_channels : option Z) : Oximeter :=
  init_fields None sfreq0 add_channels.

(** ** The attribute-mutation monad

    A method mutates [self] field by field and may raise part-way; the
    fields it assigned before raising stay assigned.  [M A] threads the
    object and returns it together with the exception or the result. *)

Definition M (A : Type) : Type := Oximeter -> Oximeter * (exn + A).

Definition ret {A} (a : A) : M A := fun s => (s, inr a).

Definition bind {A B} (m : M A) (f : A -> M B) : M B :=
  fun s => match m s with
           | (s', inl e) => (s', inl e)
           | (s', inr a) => f a s'
           end.

Definition raise {A} (e : exn) : M A := fun s => (s, inl e).

Definition get : M Oximeter := fun s => (s, inr s).

Definition modify (f : Oximeter -> Oximeter) : M unit :=
  fun s => (f s, inr tt).

(** Reading [l[-k]], raising [IndexError] out of range. *)
Definition neg_index {A} (l : list A) (k : nat) : M A :=
  match py_neg_nth l k with
  | Some x => ret x
  | None => raise IndexError
  end.

(** Python's true division [a / b] of two integers. *)
Definition truediv (a b : Z) : M Q :=
  if b =? 0 then raise ZeroDivisionError else ret (inject_Z a / inject_Z b)%Q.

Declare Scope oxi_scope.
Delimit Scope oxi_scope with oxi.
Notation "x <- m ;; k" := (bind m (fun x => k))
  (at level 61, m at next level, right associativity) : oxi_scope.
Notation "m ;; k" := (bind m (fun _ : unit => k))
  (at level 61, right associativity) : oxi_scope.
Local Open Scope oxi_scope.

(** ** [Oximeter.add_paquet(paquet, window=1)]

    [window] is the window length in seconds (an [int] or [float]); the
    window in samples is [int(window * self.sfreq)], a truncation toward
    zero. *)

Definition window_samples (window : Q) (sfreq0 : Z) : Z :=
  Z.quot (Qnum window * sfreq0) (Zpos (Qden window)).

(** The blocks of [add_paquet], in the order of the source. *)

(** [self.recording.append(paquet)] *)
Definition store_paquet (paquet : Z) : M unit :=
  modify (fun s => set_recording s (recording s ++ [paquet])).

(** [for ch in self.channels: ch.append(0)]: iterating the dict yields its
    keys, and a [str] has no [append]. *)
Definition update_channels : M unit :=
  s <- get ;;
  match channels s with
  | None => ret tt
  | Some [] => ret tt
  | Some (_ :: _) => raise AttributeError
  end.

(** Update of the times vector. *)
Definition update_times : M unit :=
  s <- get ;;
  match times s with
  | [] => modify (fun s => set_times s [0%Q])
  | _ => t <- truediv (Z.of_nat (length (times s))) (sfreq s) ;;
         modify (fun s => set_times s (times s ++ [t]))
  end.

(** [self.threshold.append(np.mean(self.recording[-window:]) +
    np.std(self.recording[-window:]))] *)
Definition update_threshold (window : Q) : M unit :=
  s <- get ;;
  let w := window_samples window (sfreq s) in
  modify (fun s => set_threshold s (threshold s ++
             [mean_plus_std (py_slice_from (- w) (recording s))])).

(** Store the new differential, or create it (and the peaks) if empty. *)
Definition update_diff : M unit :=
  s <- get ;;
  match diff s with
  | [] => modify (fun s => set_peaks (set_diff s (np_diff (recording s)))
                                     (repeat 0 (length (recording s))))
  | _ => r1 <- neg_index (recording s) 1 ;;
         r2 <- neg_index (recording s) 2 ;;
         modify (fun s => set_diff s (diff s ++ [r1 - r2]))
  end.

(** The nested peak test. *)
Definition detect_peak (paquet : Z) : M unit :=
  s <- get ;;
  t <- neg_index (threshold s) 1 ;;
  if gt_thr paquet t then
    (* [|] is not short-circuit: both [diff[-1]] and [diff[-2]] are read *)
    d1 <- neg_index (diff s) 1 ;;
    d2 <- neg_index (diff s) 2 ;;
    if (d1 =? 0) || xorb (0 <? d1) (0 <? d2) then
      if 0 <? d2 then
        if dist s <? lag s then
          modify (fun s => set_lag (set_peaks s (peaks s ++ [1])) (-1))
        else ret tt
      else ret tt
    else ret tt
  else ret tt.

(** [if self.lag >= 0: self.peaks.append(0)] then [self.lag += 1]. *)
Definition pad_and_count : M unit :=
  s <- get ;;
  (if 0 <=? lag s then modify (fun s => set_peaks s (peaks s ++ [0]))
   else ret tt) ;;
  modify (fun s => set_lag s (lag s + 1)).

(** Update of the instantaneous heart rate. *)
Definition update_rr : M unit :=
  s <- get ;;
  if 2 <? sum_Z (peaks s) then
    d <- neg_index (np_diff (np_where (peaks s))) 1 ;;
    (* numpy would give [inf] for [sfreq = 0]; no session reaches this
       line with [sfreq = 0], the times update raises before *)
    q <- truediv d (sfreq s) ;;
    modify (fun s => set_instant_rr s (instant_rr s ++ [(q * 1000)%Q]))
  else modify (fun s => set_instant_rr s (instant_rr s ++ [0%Q])).

Definition add_paquet (paquet : Z) (window : Q) : M unit :=
  store_paquet paquet ;;
  update_channels ;;
  update_times ;;
  update_threshold window ;;
  update_diff ;;
  detect_peak paquet ;;
  pad_and_count ;;
  update_rr.

(** A sequence of [add_paquet] calls (default window), stopping at the first
    exception. *)
Fixpoint add_paquets (window : Q) (vs : list Z) : M unit :=
  match vs with
  | [] => ret tt
  | v :: vs' => add_paquet v window ;; add_paquets window vs'
  end.

Local Close Scope oxi_scope.

(** ** The serial device

    [dev_buf] holds the bytes received and not read ([inWaiting()] is its
    length); [dev_fut] holds the bytes the device sends later.  A blocking
    [read(n)] takes the buffered bytes first and then waits for the
    following ones; when the stream ends it returns fewer bytes (the port's
    timeout).  [reset_input_buffer()] drops the buffered bytes. *)

Record device : Type := mk_dev { dev_buf : list Z; dev_fut : list Z }.

Definition inWaiting (d : device) : nat := length (dev_buf d).

Definition serial_read (n : nat) (d : device) : list Z * device :=
  if Nat.leb n (length (dev_buf d)) then
    (firstn n (dev_buf d), mk_dev (skipn n (dev_buf d)) (dev_fut d))
  else
    let k := (n - length (dev_buf d))%nat in
    (dev_buf d ++ firstn k (dev_fut d), mk_dev [] (skipn k (dev_fut d))).

Definition reset_input_buffer (d : device) : device := mk_dev [] (dev_fut d).

(** How a loop of the acquisition code ends: normally, by an exception,
    or still running when the [fuel] bound on its iterations ran out. *)
Inductive outcome : Type :=
| Done
| Raised (e : exn)
| OutOfFuel.

(** [while True: reset_input_buffer(); paquet = list(read(5));
    if self.check(paquet): break] *)
Fixpoint synch_loop (fuel : nat) (d : device) : device * outcome :=
  match fuel with
  | O => (d, OutOfFuel)
  | S f =>
      let '(p, d2) := serial_read 5 (reset_input_buffer d) in
      if check p then (d2, Done) else synch_loop f d2
  end.

(** [self.__init__(serial=self.serial)]: the first line of [setup]. *)
Definition reset_session (s : Oximeter) : Oximeter :=
  init_fields (triggers s) 75 None.

(** [Oximeter.setup()] *)
Definition setup (fuel : nat) (s : Oximeter) (d : device)
  : Oximeter * device * outcome :=
  let s0 := reset_session s in
  let '(d', o) := synch_loop fuel d in
  (s0, d', o).

(** [self.triggers[-1] = -1] *)
Definition set_last_trigger (s : Oximeter) : Oximeter * (exn + unit) :=
  match triggers s with
  | None => (s, inl AttributeError)
  | Some [] => (s, inl IndexError)
  | Some tr => (set_triggers s (Some (removelast tr ++ [-1])), inr tt)
  end.

(** [Oximeter.readInWaiting(stop)]; [log] collects what is printed. *)
Fixpoint readInWaiting (fuel : nat) (stop : bool) (s : Oximeter) (d : device)
    (log : list string) : Oximeter * device * list string * outcome :=
  match fuel with
  | O => (s, d, log, OutOfFuel)
  | S f =>
      if Nat.leb 5 (inWaiting d) then
        let '(p, d1) := serial_read 5 d in
        if check p then
          match add_paquet (nth 2 p 0) 1%Q s with
          | (s1, inl e) => (s1, d1, log, Raised e)
          | (s1, inr _) => readInWaiting f stop s1 d1 log
          end
        else if stop then (s, d1, log, Raised ValueError)
        else
          let log1 := log ++ ["Synch error"%string] in
          match set_last_trigger s with
          | (s1, inl e) => (s1, d1, log1, Raised e)
          | (s1, inr _) =>
              match synch_loop f d1 with
              | (d2, Done) => readInWaiting f stop s1 d2 log1
              | (d2, o) => (s1, d2, log1, o)
              end
          end
      else (s, d, log, Done)
  end.

(** ** [Oximeter.read(duration)] and [Oximeter.waitBeat()]

    Both methods poll [inWaiting()] in a loop.  The time at which bytes come
    in is given by the list [arr]: one entry per turn of the loop, the
    number of bytes the device delivers to the input buffer before that
    turn.  [read] leaves its loop once the [duration] has elapsed, i.e.
    when [arr] is exhausted; [waitBeat] has no time limit and is then still
    running ([OutOfFuel]). *)

(** [k] more bytes of the stream reach the input buffer. *)
Definition arrive (k : nat) (d : device) : device :=
  mk_dev (dev_buf d ++ firstn k (dev_fut d)) (skipn k (dev_fut d)).

(** [Oximeter.read(duration)]; [sfuel] bounds the loop of each [setup]. *)
Fixpoint read (sfuel : nat) (arr : list nat) (s : Oximeter) (d : device)
  : Oximeter * device * outcome :=
  match arr with
  | [] => (s, d, Done)
  | k :: arr' =>
      let d0 := arrive k d in
      if Nat.leb 5 (inWaiting d0) then
        let '(p, d1) := serial_read 5 d0 in
        if check p then
          match add_paquet (nth 2 p 0) 1%Q s with
          | (s1, inl e) => (s1, d1, Raised e)
          | (s1, inr _) => read sfuel arr' s1 d1
          end
        else
          match setup sfuel s d1 with
          | (s1, d2, Done) => read sfuel arr' s1 d2
          | (s1, d2, o) => (s1, d2, o)
          end
      else read sfuel arr' s d0
  end.

(** [any(l[-2:])]: one of the last two entries is nonzero. *)
Definition any_last_two (l : list Z) : bool :=
  existsb (fun x => negb (x =? 0)) (py_slice_from (-2) l).

(** [Oximeter.waitBeat()].  The attribute [stim], like [triggers], is not
    created by [__init__]: [None] while it does not exist.  [log] collects
    what is printed. *)
Fixpoint waitBeat (arr : list nat) (s : Oximeter) (stim : option (list Z))
    (d : device) (log : list string)
  : Oximeter * option (list Z) * device * list string * outcome :=
  match arr with
  | [] => (s, stim, d, log, OutOfFuel)
  | k :: arr' =>
      let d0 := arrive k d in
      if Nat.leb 5 (inWaiting d0) then
        let '(p, d1) := serial_read 5 d0 in
        if check p then
          match add_paquet (nth 2 p 0) 1%Q s with
          | (s1, inl e) => (s1, stim, d1, log, Raised e)
          | (s1, inr _) =>
              match triggers s1 with
              | None => (s1, stim, d1, log, Raised AttributeError)
              | Some tr =>
                  if any_last_two tr then
                    (* [self.stim[-1] = 1] then [break] *)
                    match stim with
                    | None => (s1, stim, d1, log, Raised AttributeError)
                    | Some [] => (s1, stim, d1, log, Raised IndexError)
                    | Some st => (s1, Some (removelast st ++ [1]), d1, log, Done)
                    end
                  else waitBeat arr' s1 stim d1 log
              end
          end
        else waitBeat arr' s stim d1 (log ++ ["Synch error"%string])
      else waitBeat arr' s stim d0 log
  end.

(** ** Sessions the program can reach

    From a new object, by [add_paquet] calls that return normally and by
    the re-initialisation of [setup]. *)
Inductive reachable : Oximeter -> Prop :=
| reach_new : forall sf ch, reachable (Oximeter_new sf ch)
| reach_add : forall s v window s',
    reachable s -> add_paquet v window s = (s', inr tt) -> reachable s'
| reach_reset : forall s, reachable s -> reachable (reset_session s).

(** ** Definitions that follow the spec's words *)

(** The last [k] values, or all of them if fewer exist. *)
Definition lastn {A} (k : nat) (l : list A) : list A :=
  skipn (length l - k) l.

Definition sum_R (l : list Z) : R := fold_right (fun x acc => IZR x + acc)%R 0%R l.

(** [mean(window) + stddev(window)] over the reals (population deviation). *)
Definition spec_mean (w : list Z) : R := (sum_R w / INR (length w))%R.

Definition spec_std (w : list Z) : R :=
  sqrt (fold_right (fun x acc => (IZR x - spec_mean w)^2 + acc)%R 0%R w
        / INR (length w)).

Definition spec_threshold (w : list Z) : R := (spec_mean w + spec_std w)%R.

(** The peak rule of the spec, with the signs of the differentials. *)
Definition spec_peak (v : Z) (t : option thr) (d_prev d_new lag0 dist0 : Z)
  : Prop :=
  match t with
  | Some t => (thr_real t < IZR v)%R
  | None => False
  end /\
  (d_new = 0 \/ Z.sgn d_new <> Z.sgn d_prev) /\ 0 < d_prev /\ dist0 < lag0.

(** Indices of the registered peaks (the 1 entries). *)
Fixpoint ones_from (i : nat) (l : list Z) : list nat :=
  match l with
  | [] => []
  | x :: t => if x =? 1 then i :: ones_from (S i) t else ones_from (S i) t
  end.

Definition peak_positions (l : list Z) : list nat := ones_from 0 l.

(** The RR value of the spec for the peak flags [pk]. *)
Definition spec_rr (sf : Z) (pk : list Z) : Q :=
  let pos := peak_positions pk in
  if Nat.leb 3 (length pos) then
    match rev pos with
    | last :: prev :: _ =>
        (inject_Z (Z.of_nat last - Z.of_nat prev) / inject_Z sf * 1000)%Q
    | _ => 0%Q
    end
  else 0%Q.

(** Any two 1 entries of [l] are more than [d] apart. *)
Definition peaks_separated (d : Z) (l : list Z) : Prop :=
  forall i j, (i < j)%nat -> nth_error l i = Some 1 -> nth_error l j = Some 1 ->
  d < Z.of_nat j - Z.of_nat i.

(** * The table of events of [systole.plots.plot_events]

    [plot_events] builds a [pandas.DataFrame] with one row per event and
    passes it to a plotting backend ([systole.plots.utils], not part of
    this code).  The embedding covers the table and the exceptions raised
    while it is built; [figsize], [ax], [backend] and [behavior] only reach
    the backend.  Times are exact rationals, in seconds, and the model is
    meant for [sfreq <> 0] (numpy gives [inf] or [nan] for [sfreq = 0]). *)

Inductive plot_exn : Type :=
| PValueError
| PKeyError (key : string).

(** The argument [triggers]: one [np.ndarray], or a list of them (one per
    condition). *)
Inductive trig_input : Type :=
| TrigArray (a : list Z)
| TrigList (l : list (list Z)).

(** A row [(tmin, trigger, tmax, label, color)] of the table. *)
Record event_row : Type := mk_row {
  row_tmin : Q;
  row_trigger : Q;
  row_tmax : Q;
  row_label : string;
  (** [i] for the [i]-th colour drawn from the cycling palette *)
  row_color : nat
}.

(** [str(n)] for a natural number [n]. *)
Definition str_nat (n : nat) : string :=
  DecimalString.NilZero.string_of_uint (Nat.to_uint n).

(** [d[k]] for a [dict] of strings given by its entries ([None]: a
    [KeyError]). *)
Fixpoint dict_get (k : string) (d : list (string * string)) : option string :=
  match d with
  | [] => None
  | (k', v) :: d' => if String.eqb k k' then Some v else dict_get k d'
  end.

(** [event / sfreq] *)
Definition ev_div (event sf : Z) : Q := (inject_Z event / inject_Z sf)%Q.

(** [for event in this_trigger_idx: ...] for the condition [i]. *)
Fixpoint events_loop (events_labels : list (string * string)) (tmin tmax : Q)
    (sf : Z) (i : nat) (idx : list Z) (df : list event_row)
  : plot_exn + list event_row :=
  match idx with
  | [] => inr df
  | event :: idx' =>
      let this_tmin := (ev_div event sf + tmin)%Q in
      let this_trigger := ev_div event sf in
      let this_tmax := (ev_div event sf + tmax)%Q in
      match dict_get (str_nat (S i)) events_labels with
      | None => inl (PKeyError (str_nat (S i)))
      | Some label =>
          events_loop events_labels tmin tmax sf i idx'
            (df ++ [mk_row this_tmin this_trigger this_tmax label i])
      end
  end.

(** [for i, this_trigger_idx in enumerate(triggers_idx): ...], from the
    condition [i] on. *)
Fixpoint conditions_loop (events_labels : list (string * string)) (tmin tmax : Q)
    (sf : Z) (i : nat) (tidx : list (list Z)) (df : list event_row)
  : plot_exn + list event_row :=
  match tidx with
  | [] => inr df
  | idx :: tidx' =>
      match events_loop events_labels tmin tmax sf i idx df with
      | inl e => inl e
      | inr df' => conditions_loop events_labels tmin tmax sf (S i) tidx' df'
      end
  end.

(** The table [df] of [plot_events(triggers, triggers_idx, events_labels,
    tmin, tmax, sfreq)], or the exception raised before the backend is
    called; [df["tmin"]] raises [KeyError] on the empty [DataFrame] of a
    recording with no event. *)
Definition plot_events_df (trig : option trig_input)
    (trig_idx : option (list (list Z))) (events_labels : list (string * string))
    (tmin tmax : Q) (sf : Z) : plot_exn + list event_row :=
  match
    match trig_idx with
    | Some t => inr t
    | None =>
        match trig with
        | None => inl PValueError
        | Some (TrigArray a) => inr [np_where a]
        | Some (TrigList l) => inr (map np_where l)
        end
    end
  with
  | inl e => inl e
  | inr tidx =>
      match conditions_loop events_labels tmin tmax sf 0 tidx [] with
      | inl e => inl e
      | inr [] => inl (PKeyError "tmin"%string)
      | inr df => inr df
      end
  end.

(** The default [events_labels]. *)
Definition default_events_labels : list (string * string) :=
  [("1", "Event - 1")]%string.

(** ** Auxiliary definitions of the proofs *)

(** The condition of the nested peak test of [detect_peak], on [diff[-1]],
    [diff[-2]], [lag] and [dist]. *)
Definition peak_test (d1 d2 lag0 dist0 : Z) : bool :=
  ((d1 =? 0) || xorb (0 <? d1) (0 <? d2)) && (0 <? d2) && (dist0 <? lag0).

(** The values [add_paquet v w] computes from the session [s]. *)
Definition new_thr (w : Q) (s : Oximeter) (v : Z) : option thr :=
  mean_plus_std (py_slice_from (- window_samples w (sfreq s)) (recording s ++ [v])).

Definition new_diff (s : Oximeter) (v : Z) : list Z :=
  match diff s with
  | [] => np_diff (recording s ++ [v])
  | _ => diff s ++ [v - last (recording s) 0]
  end.

Definition new_peaks0 (s : Oximeter) (v : Z) : list Z :=
  match diff s with
  | [] => repeat 0 (length (recording s ++ [v]))
  | _ => peaks s
  end.

(** Whether [add_paquet v w] registers a peak on [s]. *)
Definition registers (w : Q) (s : Oximeter) (v : Z) : bool :=
  gt_thr v (new_thr w s v) &&
  peak_test (last (new_diff s v) 0) (last (removelast (new_diff s v)) 0)
    (lag s) (dist s).

(** A list of peak flags. *)
Definition flags01 (l : list Z) : Prop := Forall (fun x => x = 0 \/ x = 1) l.

(** What every reachable session satisfies. *)
Definition shape_inv (s : Oximeter) : Prop :=
  length (times s) = length (recording s) /\
  length (threshold s) = length (recording s) /\
  length (instant_rr s) = length (recording s) /\
  flags01 (peaks s) /\
  0 <= lag s /\
  channels s <> Some [] /\
  (recording s = [] -> diff s = []) /\
  (recording s <> [] ->
     channels s = None /\ S (length (diff s)) = length (recording s) /\
     length (peaks s) = S (length (recording s))) /\
  ((2 <= length (recording s))%nat -> sfreq s <> 0) /\
  (0 < sfreq s -> Forall (Qle 0) (instant_rr s)).

(** Every registered peak lies at least [lag] entries before the end of [peaks]. *)
Definition lag_bound (lg : Z) (l : list Z) : Prop :=
  forall i, nth_error l i = Some 1 -> Z.of_nat i + lg <= Z.of_nat (length l) - 1.

Definition sep_inv (s : Oximeter) : Prop :=
  peaks_separated (dist s) (peaks s) /\ lag_bound (lag s) (peaks s).

(** [m] never changes the threshold sequence, whatever its outcome. *)
Definition keeps_threshold {A} (m : M A) : Prop :=
  forall s s' r, m s = (s', r) -> threshold s' = threshold s.

(** A frame that passes [check], and a 5-byte frame that does not. *)
Definition frame_ok (f : list Z) : Prop := length f = 5%nat /\ check f = true.

Definition bad_frame (f : list Z) : Prop := length f = 5%nat /\ check f = false.

(** [paquet[2]], the value a frame carries. *)
Definition byte2 (f : list Z) : Z := nth 2 f 0.

(** The events of [triggers_idx], as (condition, event) pairs from the
    condition [i] on, in the order [plot_events] visits them. *)
Fixpoint flat_events_from (i : nat) (tidx : list (list Z)) : list (nat * Z) :=
  match tidx with
  | [] => []
  | idx :: tidx' => map (pair i) idx ++ flat_events_from (S i) tidx'
  end.

(** The row [plot_events] appends for [event] of the condition [i]. *)
Definition row_of (sf : Z) (tmin tmax : Q) (label : string) (i : nat) (event : Z)
  : event_row :=
  mk_row (ev_div event sf + tmin) (ev_div event sf) (ev_div event sf + tmax) label i.

(** The row [r] is the one of the event [p = (i, event)]. *)
Definition row_rel (L : list (string * string)) (tmin tmax : Q) (sf : Z)
    (r : event_row) (p : nat * Z) : Prop :=
  row_trigger r = (inject_Z (snd p) / inject_Z sf)%Q /\
  row_tmin r = (row_trigger r + tmin)%Q /\
  row_tmax r = (row_trigger r + tmax)%Q /\
  dict_get (str_nat (S (fst p))) L = Some (row_label r) /\
  row_color r = fst p.

(** Inputs used to evaluate the theorems on the acquisition loops and on
    [plot_events]. *)
Definition valid_stream : list (list Z) := [[1; 10; 200; 0; 211]; [1; 10; 90; 0; 101]].

Definition read_demo : Oximeter * device * outcome :=
  read 2 [3; 4; 1]%nat (Oximeter_new 75 None) (mk_dev [] (concat valid_stream)).

Definition rows_demo : list event_row :=
  match plot_events_df None (Some [[10]; []; [20]]) [("1", "a"); ("3", "b")]%string
          (-1) 10 1000 with
  | inr df => df
  | inl _ => []
  end.

(** Sessions used to evaluate the theorems. *)
Definition demo_session : Oximeter :=
  fst (add_paquets 1 [5; 5] (Oximeter_new 10 None)).

(** Five periods of a pulse wave sampled at 10 Hz. *)
Definition wave : list Z := concat (repeat [0; 0; 0; 0; 0; 0; 90; 100; 100; 0] 5).

Definition wave_session : Oximeter := fst (add_paquets 1 wave (Oximeter_new 10 None)).

(** ** Evaluations on small inputs *)

Example check_valid_frame : check [1; 10; 200; 0; 211] = true.
Proof. reflexivity. Qed.

Example check_bad_checksum : check [1; 10; 200; 0; 212] = false.
Proof. reflexivity. Qed.

Example add_two_equal_samples :
  let '(s, r) := add_paquets 1 [5; 5] (Oximeter_new 10 None) in
  r = inr tt /\ diff s = [0] /\ peaks s = [0; 0; 0] /\ lag s = 2.
Proof. vm_compute. auto. Qed.

(** ** The frame check *)

Lemma check_five (a b c d e : Z) :
  check [a; b; c; d; e] =
  (a =? 1) && ((0 <=? b) && (b <=? 255)) && ((0 <=? c) && (c <=? 255))
  && (d <=? 127) && (e =? (a + b + c + d) mod 256).
Proof.
  unfold check; simpl.
  replace (a + (b + (c + (d + 0)))) with (a + b + c + d) by ring.
  destruct (a =? 1), ((0 <=? b) && (b <=? 255)), ((0 <=? c) && (c <=? 255)),
    (d <=? 127), (e =? (a + b + c + d) mod 256); reflexivity.
Qed.

(** C4: on 5-element inputs, [check] holds exactly when the five frame
    conditions hold. *)
Theorem check_iff_frame_conditions (p : list Z) (Hlen : length p = 5%nat) :
  check p = true <->
  nth 0 p 0 = 1 /\ 0 <= nth 1 p 0 <= 255 /\ 0 <= nth 2 p 0 <= 255 /\
  nth 3 p 0 <= 127 /\
  nth 4 p 0 = (nth 0 p 0 + nth 1 p 0 + nth 2 p 0 + nth 3 p 0) mod 256.
Proof.
  destruct p as [|a [|b [|c [|d [|e [|x p]]]]]]; simpl in Hlen; try discriminate.
  rewrite check_five; simpl nth.
  rewrite !andb_true_iff, !Z.eqb_eq, !Z.leb_le.
  tauto.
Qed.

Lemma check_iff_frame_conditions_witness :
  length [1; 10; 200; 0; 211] = 5%nat /\
  (check [1; 10; 200; 0; 211] = true <->
   nth 0 [1; 10; 200; 0; 211] 0 = 1 /\ 0 <= nth 1 [1; 10; 200; 0; 211] 0 <= 255 /\
   0 <= nth 2 [1; 10; 200; 0; 211] 0 <= 255 /\ nth 3 [1; 10; 200; 0; 211] 0 <= 127 /\
   nth 4 [1; 10; 200; 0; 211] 0 =
   (nth 0 [1; 10; 200; 0; 211] 0 + nth 1 [1; 10; 200; 0; 211] 0 +
    nth 2 [1; 10; 200; 0; 211] 0 + nth 3 [1; 10; 200; 0; 211] 0) mod 256).
Proof.
  split; [reflexivity | apply (check_iff_frame_conditions [1; 10; 200; 0; 211])].
  reflexivity.
Defined.

(** C10 (counterexample): a 6-element input whose first five elements form a
    valid frame is accepted. *)
Lemma check_accepts_six_elements :
  length [1; 0; 0; 0; 1; 0] <> 5%nat /\ check [1; 0; 0; 0; 1; 0] = true.
Proof. split; [discriminate | reflexivity]. Qed.

(** C10 (amended): [check] rejects every input shorter than 5 elements, and
    on longer inputs it only looks at the first five. *)
Theorem check_length_guard (p : list Z) :
  (length p < 5 -> check p = false)%nat /\
  (5 <= length p -> check p = check (firstn 5 p))%nat.
Proof.
  split; intro H.
  - unfold check. destruct (Nat.leb_spec 5 (length p)); [lia | reflexivity].
  - destruct p as [|a [|b [|c [|d [|e p]]]]]; simpl in H; try lia.
    unfold check; simpl. reflexivity.
Qed.

(** ** Evaluations at the failing inputs *)

(** C7: the first sample of a session created with auxiliary channels
    raises [AttributeError] (the loop over the channel dict meets a [str]
    key), after [recording] was extended. *)
Theorem first_ingest_with_channels_raises :
  add_paquet 100 1 (Oximeter_new 75 (Some 1)) =
  (set_recording (Oximeter_new 75 (Some 1)) [100], inl AttributeError).
Proof. reflexivity. Qed.

(** C8: on a new session, one corrupted frame in [readInWaiting(stop=False)]
    prints the error and then raises [AttributeError] from
    [self.triggers[-1] = -1]: the attribute was never created. *)
Theorem readInWaiting_corrupted_frame_raises :
  readInWaiting 10 false (Oximeter_new 75 None) (mk_dev [0; 0; 0; 0; 0] [1; 0; 0; 0; 1]) []
  = (Oximeter_new 75 None, mk_dev [] [1; 0; 0; 0; 1], ["Synch error"%string],
     Raised AttributeError).
Proof. reflexivity. Qed.

(** C9: [setup] on a session created with [sfreq = 100] empties the series
    but leaves a session with the default [sfreq = 75] and [dist = 15], not
    the session [Oximeter(serial, sfreq=100)] (whose [dist] is 20). *)
Theorem setup_resets_sampling_rate :
  setup 1 (Oximeter_new 100 None) (mk_dev [] [1; 0; 0; 0; 1]) =
  (Oximeter_new 75 None, mk_dev [] [], Done) /\
  recording (Oximeter_new 75 None) = [] /\ lag (Oximeter_new 75 None) = 0 /\
  sfreq (Oximeter_new 75 None) = 75 /\ dist (Oximeter_new 75 None) = 15 /\
  dist (Oximeter_new 100 None) = 20 /\
  Oximeter_new 75 None <> Oximeter_new 100 None.
Proof.
  repeat split; try reflexivity.
  intro Heq. apply (f_equal sfreq) in Heq. discriminate.
Qed.

(** ** The monad *)

Lemma bind_inv {A B} (m : M A) (f : A -> M B) s s' b :
  bind m f s = (s', inr b) -> exists s1 a, m s = (s1, inr a) /\ f a s1 = (s', inr b).
Proof.
  unfold bind. destruct (m s) as [s1 [e|a]]; intro H; [discriminate | eauto].
Qed.

Lemma bind_run {A B} (m : M A) (f : A -> M B) s s1 a :
  m s = (s1, inr a) -> bind m f s = f a s1.
Proof. unfold bind. intros ->. reflexivity. Qed.

(** [l[-1]] and [l[-2]]. *)
Lemma py_neg_nth_1 {A} (l : list A) x :
  py_neg_nth l 1 = Some x <-> exists pre, l = pre ++ [x].
Proof.
  unfold py_neg_nth. split.
  - destruct (Nat.leb_spec 1 (length l)); [|discriminate].
    intro H1. exists (firstn (length l - 1) l).
    destruct (@exists_last _ l) as (pre & y & ->); [intro E; subst; simpl in *; lia|].
    rewrite length_app in *; simpl in *.
    replace (length pre + 1 - 1)%nat with (length pre) in * by lia.
    rewrite nth_error_app2 in H1 by lia. rewrite Nat.sub_diag in H1.
    simpl in H1. inversion H1; subst.
    rewrite firstn_app, firstn_all, Nat.sub_diag. simpl. rewrite app_nil_r.
    reflexivity.
  - intros (pre & ->). rewrite length_app.
    replace (length [x]) with 1%nat by reflexivity.
    rewrite (proj2 (Nat.leb_le 1 _)) by lia.
    rewrite nth_error_app2 by lia.
    replace (length pre + 1 - 1 - length pre)%nat with 0%nat by lia.
    reflexivity.
Qed.

Lemma py_neg_nth_2 {A} (l : list A) x :
  py_neg_nth l 2 = Some x <-> exists pre y, l = pre ++ [x; y].
Proof.
  unfold py_neg_nth. split.
  - destruct (Nat.leb_spec 2 (length l)); [|discriminate].
    intro H1.
    destruct (@exists_last _ l) as (l1 & y & ->); [intro E; subst; simpl in *; lia|].
    rewrite length_app in *; simpl in *.
    destruct (@exists_last _ l1) as (pre & z & ->); [intro E; subst; simpl in *; lia|].
    rewrite length_app in *; simpl in *.
    rewrite <- app_assoc in H1.
    rewrite nth_error_app2 in H1 by lia.
    replace (length pre + 1 + 1 - 2 - length pre)%nat with 0%nat in H1 by lia.
    simpl in H1. inversion H1; subst.
    exists pre, y. rewrite <- app_assoc. reflexivity.
  - intros (pre & y & ->). rewrite length_app.
    replace (length [x; y]) with 2%nat by reflexivity.
    rewrite (proj2 (Nat.leb_le 2 _)) by lia.
    rewrite nth_error_app2 by lia.
    replace (length pre + 2 - 2 - length pre)%nat with 0%nat by lia.
    reflexivity.
Qed.

Lemma py_neg_nth_app1 {A} (pre : list A) x : py_neg_nth (pre ++ [x]) 1 = Some x.
Proof. apply py_neg_nth_1. eauto. Qed.

Lemma py_neg_nth_app2 {A} (pre : list A) x y : py_neg_nth (pre ++ [x; y]) 2 = Some x.
Proof. apply py_neg_nth_2. eauto. Qed.

Lemma neg_index_inv {A} (l : list A) k s s' x :
  neg_index l k s = (s', inr x) -> s' = s /\ py_neg_nth l k = Some x.
Proof.
  unfold neg_index, ret, raise. destruct (py_neg_nth l k); intro H;
    inversion H; subst; auto.
Qed.

Lemma truediv_inv a b s s' q :
  truediv a b s = (s', inr q) -> s' = s /\ b <> 0 /\ q = (inject_Z a / inject_Z b)%Q.
Proof.
  unfold truediv, ret, raise. destruct (Z.eqb_spec b 0); intro H;
    inversion H; subst; auto.
Qed.

(** ** The blocks of [add_paquet], when they return normally *)

Ltac inv_pair H := inversion H; subst; clear H.

Lemma store_paquet_run v s :
  store_paquet v s = (set_recording s (recording s ++ [v]), inr tt).
Proof. reflexivity. Qed.

Lemma update_channels_inv s s' u :
  update_channels s = (s', inr u) ->
  s' = s /\ (channels s = None \/ channels s = Some []).
Proof.
  unfold update_channels, bind, get, ret, raise.
  destruct (channels s) as [[|c cs]|]; intro H; inv_pair H; auto.
Qed.

Lemma update_times_inv s s' u :
  update_times s = (s', inr u) ->
  (times s = [] /\ s' = set_times s [0%Q]) \/
  (times s <> [] /\ sfreq s <> 0 /\
   s' = set_times s (times s ++
          [(inject_Z (Z.of_nat (length (times s))) / inject_Z (sfreq s))%Q])).
Proof.
  unfold update_times, bind at 1, get. cbv beta iota.
  destruct (times s) as [|t0 ts] eqn:Ht; intro H.
  - inv_pair H. auto.
  - apply bind_inv in H. destruct H as (s1 & q & H1 & H2).
    apply truediv_inv in H1. destruct H1 as (-> & Hne & ->).
    inv_pair H2. right. rewrite Ht. split; [discriminate|auto].
Qed.

Lemma update_threshold_run w s :
  update_threshold w s =
  (set_threshold s (threshold s ++
     [mean_plus_std (py_slice_from (- window_samples w (sfreq s)) (recording s))]),
   inr tt).
Proof. reflexivity. Qed.

Lemma update_diff_inv s s' u :
  update_diff s = (s', inr u) ->
  (diff s = [] /\
   s' = set_peaks (set_diff s (np_diff (recording s))) (repeat 0 (length (recording s)))) \/
  (diff s <> [] /\ exists pre r2 r1, recording s = pre ++ [r2; r1] /\
   s' = set_diff s (diff s ++ [r1 - r2])).
Proof.
  unfold update_diff, bind at 1, get. cbv beta iota.
  destruct (diff s) as [|d0 ds] eqn:Hd; intro H.
  - inv_pair H. auto.
  - apply bind_inv in H. destruct H as (s1 & r1 & H1 & H).
    apply neg_index_inv in H1. destruct H1 as (-> & H1).
    apply bind_inv in H. destruct H as (s2 & r2 & H2 & H).
    apply neg_index_inv in H2. destruct H2 as (-> & H2).
    inv_pair H. right. split; [discriminate|].
    apply py_neg_nth_2 in H2. destruct H2 as (pre & y & Hrec).
    rewrite Hrec in H1.
    replace (pre ++ [r2; y]) with ((pre ++ [r2]) ++ [y]) in H1
      by (rewrite <- app_assoc; reflexivity).
    rewrite py_neg_nth_app1 in H1. inversion H1; subst.
    exists pre, r2, r1. rewrite Hd. auto.
Qed.

Lemma set_peaks_same s : set_peaks s (peaks s) = s.
Proof. destruct s; reflexivity. Qed.

Lemma set_lag_same s : set_lag s (lag s) = s.
Proof. destruct s; reflexivity. Qed.

Lemma detect_peak_inv v s s' u :
  detect_peak v s = (s', inr u) ->
  exists t, py_neg_nth (threshold s) 1 = Some t /\
  ((gt_thr v t = false /\ s' = s) \/
   (gt_thr v t = true /\ exists d1 d2,
      py_neg_nth (diff s) 1 = Some d1 /\ py_neg_nth (diff s) 2 = Some d2 /\
      s' = set_lag (set_peaks s (if peak_test d1 d2 (lag s) (dist s)
                                  then peaks s ++ [1] else peaks s))
                   (if peak_test d1 d2 (lag s) (dist s) then -1 else lag s))).
Proof.
  unfold detect_peak, bind at 1, get. cbv beta iota. intro H.
  apply bind_inv in H. destruct H as (s1 & t & H1 & H).
  apply neg_index_inv in H1. destruct H1 as (-> & H1).
  exists t. split; [exact H1|].
  destruct (gt_thr v t) eqn:Hg.
  - right. split; [reflexivity|].
    apply bind_inv in H. destruct H as (s2 & d1 & H2 & H).
    apply neg_index_inv in H2. destruct H2 as (-> & H2).
    apply bind_inv in H. destruct H as (s3 & d2 & H3 & H).
    apply neg_index_inv in H3. destruct H3 as (-> & H3).
    exists d1, d2. split; [exact H2|]. split; [exact H3|].
    unfold peak_test.
    destruct ((d1 =? 0) || xorb (0 <? d1) (0 <? d2)), (0 <? d2), (dist s <? lag s);
      unfold ret, modify in H; inv_pair H; simpl;
      rewrite ?set_peaks_same, ?set_lag_same; reflexivity.
  - left. unfold ret in H. inv_pair H. auto.
Qed.

Lemma pad_and_count_run s :
  pad_and_count s =
  (set_lag (set_peaks s (if 0 <=? lag s then peaks s ++ [0] else peaks s)) (lag s + 1),
   inr tt).
Proof.
  unfold pad_and_count, bind, get, modify, ret.
  destruct (0 <=? lag s); [reflexivity|]. rewrite set_peaks_same. reflexivity.
Qed.

Lemma update_rr_inv s s' u :
  update_rr s = (s', inr u) ->
  ((2 <? sum_Z (peaks s)) = false /\ s' = set_instant_rr s (instant_rr s ++ [0%Q])) \/
  ((2 <? sum_Z (peaks s)) = true /\ sfreq s <> 0 /\ exists d,
     py_neg_nth (np_diff (np_where (peaks s))) 1 = Some d /\
     s' = set_instant_rr s (instant_rr s ++
            [(inject_Z d / inject_Z (sfreq s) * 1000)%Q])).
Proof.
  unfold update_rr, bind at 1, get. cbv beta iota.
  destruct (2 <? sum_Z (peaks s)) eqn:Hs; intro H.
  - apply bind_inv in H. destruct H as (s1 & d & H1 & H).
    apply neg_index_inv in H1. destruct H1 as (-> & H1).
    apply bind_inv in H. destruct H as (s2 & q & H2 & H).
    apply truediv_inv in H2. destruct H2 as (-> & Hne & ->).
    inv_pair H. right. eauto.
  - inv_pair H. auto.
Qed.

(** [add_paquet] returns normally exactly when each of its blocks does. *)
Lemma add_paquet_steps v w s s' :
  add_paquet v w s = (s', inr tt) <->
  exists s3 s5 s6,
    update_channels (set_recording s (recording s ++ [v])) =
      (set_recording s (recording s ++ [v]), inr tt) /\
    update_times (set_recording s (recording s ++ [v])) = (s3, inr tt) /\
    update_diff (fst (update_threshold w s3)) = (s5, inr tt) /\
    detect_peak v s5 = (s6, inr tt) /\
    update_rr (fst (pad_and_count s6)) = (s', inr tt).
Proof.
  unfold add_paquet. split.
  - intro H. rewrite (bind_run _ _ _ _ _ (store_paquet_run v s)) in H.
    apply bind_inv in H. destruct H as (s2 & [] & H2 & H).
    pose proof H2 as H2'. apply update_channels_inv in H2'. destruct H2' as (-> & _).
    apply bind_inv in H. destruct H as (s3 & [] & H3 & H).
    rewrite (bind_run _ _ _ _ _ (update_threshold_run w s3)) in H.
    apply bind_inv in H. destruct H as (s5 & [] & H5 & H).
    apply bind_inv in H. destruct H as (s6 & [] & H6 & H).
    rewrite (bind_run _ _ _ _ _ (pad_and_count_run s6)) in H.
    exists s3, s5, s6. rewrite update_threshold_run, pad_and_count_run.
    cbn [fst]. repeat split; assumption.
  - intros (s3 & s5 & s6 & H2 & H3 & H5 & H6 & H8).
    rewrite (bind_run _ _ _ _ _ (store_paquet_run v s)).
    rewrite (bind_run _ _ _ _ _ H2), (bind_run _ _ _ _ _ H3).
    rewrite (bind_run _ _ _ _ _ (update_threshold_run w s3)).
    rewrite update_threshold_run in H5. cbn [fst] in H5.
    rewrite (bind_run _ _ _ _ _ H5), (bind_run _ _ _ _ _ H6).
    rewrite (bind_run _ _ _ _ _ (pad_and_count_run s6)).
    rewrite pad_and_count_run in H8. exact H8.
Qed.

(** ** The first two samples never exceed their threshold *)

Lemma py_slice_from_skipn {A} (a : Z) (l : list A) :
  exists k, py_slice_from a l = skipn k l.
Proof. unfold py_slice_from. destruct (0 <=? a); eauto. Qed.

Lemma Qle_bool_Z (a b : Q) : Qle_bool a b = (Qnum a * Zpos (Qden b) <=? Qnum b * Zpos (Qden a)).
Proof. reflexivity. Qed.

Lemma single_sample_not_above v : gt_thr v (mean_plus_std [v]) = false.
Proof.
  unfold gt_thr, mean_plus_std, np_mean. simpl.
  rewrite Qle_bool_Z. simpl.
  apply andb_false_intro1. apply negb_false_iff. apply Z.leb_le. lia.
Qed.

Lemma two_samples_not_above x v : gt_thr v (mean_plus_std [x; v]) = false.
Proof.
  unfold gt_thr, mean_plus_std, np_var, np_mean. simpl.
  rewrite !Qle_bool_Z. simpl.
  apply andb_false_intro2. apply negb_false_iff. apply Z.leb_le.
  nia.
Qed.

Lemma early_samples_not_above x v a :
  gt_thr v (mean_plus_std (py_slice_from a [v])) = false /\
  gt_thr v (mean_plus_std (py_slice_from a [x; v])) = false.
Proof.
  destruct (py_slice_from_skipn a [v]) as [k ->].
  destruct (py_slice_from_skipn a [x; v]) as [k' ->].
  split.
  - destruct k; simpl; [apply single_sample_not_above | rewrite skipn_nil; reflexivity].
  - destruct k' as [|[|k']]; simpl;
      [apply two_samples_not_above | apply single_sample_not_above
      | rewrite skipn_nil; reflexivity].
Qed.

(** ** The effect of an [add_paquet] call that returns normally *)

Ltac simpl_sets :=
  unfold set_lag, set_instant_rr, set_recording, set_times, set_threshold,
    set_diff, set_peaks, set_triggers in *;
  cbn [lag sfreq dist instant_rr recording times threshold diff peaks channels
       triggers] in *.

Lemma py_neg_nth_1_last (l : list Z) x : py_neg_nth l 1 = Some x -> last l 0 = x.
Proof.
  intro H. apply py_neg_nth_1 in H. destruct H as (pre & ->). apply last_last.
Qed.

Lemma py_neg_nth_2_last (l : list Z) x :
  py_neg_nth l 2 = Some x -> last (removelast l) 0 = x /\ (2 <= length l)%nat.
Proof.
  intro H. apply py_neg_nth_2 in H. destruct H as (pre & y & ->).
  replace (pre ++ [x; y]) with ((pre ++ [x]) ++ [y]) by (rewrite <- app_assoc; reflexivity).
  rewrite removelast_last, last_last, !length_app. simpl. split; [reflexivity | lia].
Qed.

Lemma py_neg_nth_nonempty {A} (l : list A) k x : py_neg_nth l k = Some x -> l <> [].
Proof.
  unfold py_neg_nth. intros H ->. simpl in H.
  destruct k; simpl in H; [destruct (length (@nil A)); discriminate | discriminate].
Qed.

Lemma append_last_inv (rec0 pre : list Z) v r2 r1 :
  rec0 ++ [v] = pre ++ [r2; r1] -> r1 = v /\ r2 = last rec0 0.
Proof.
  intro H.
  replace (pre ++ [r2; r1]) with ((pre ++ [r2]) ++ [r1]) in H
    by (rewrite <- app_assoc; reflexivity).
  apply app_inj_tail in H. destruct H as [-> ->].
  split; [reflexivity|]. rewrite last_last. reflexivity.
Qed.

Lemma add_paquet_effect v w s s' :
  add_paquet v w s = (s', inr tt) ->
  (channels s = None \/ channels s = Some []) /\
  (times s <> [] -> sfreq s <> 0) /\
  (gt_thr v (new_thr w s v) = true -> 2 <= length (new_diff s v))%nat /\
  recording s' = recording s ++ [v] /\
  sfreq s' = sfreq s /\ dist s' = dist s /\ channels s' = channels s /\
  triggers s' = triggers s /\
  times s' = match times s with
             | [] => [0%Q]
             | _ => times s ++
                      [(inject_Z (Z.of_nat (length (times s))) / inject_Z (sfreq s))%Q]
             end /\
  threshold s' = threshold s ++ [new_thr w s v] /\
  diff s' = new_diff s v /\
  peaks s' = (if registers w s v then new_peaks0 s v ++ [1]
              else if 0 <=? lag s then new_peaks0 s v ++ [0] else new_peaks0 s v) /\
  lag s' = (if registers w s v then -1 else lag s) + 1 /\
  instant_rr s' = instant_rr s ++
    [if 2 <? sum_Z (peaks s')
     then (inject_Z (last (np_diff (np_where (peaks s'))) 0%Z) / inject_Z (sfreq s) * 1000)%Q
     else 0%Q] /\
  ((2 <? sum_Z (peaks s')) = true -> sfreq s <> 0 /\ np_diff (np_where (peaks s')) <> []).
Proof.
  intro H. apply add_paquet_steps in H.
  destruct H as (s3 & s5 & s6 & H2 & H3 & H5 & H6 & H8).
  apply update_channels_inv in H2. destruct H2 as (_ & Hch).
  unfold registers, new_thr, new_diff, new_peaks0.
  destruct s as [l0 f0 d0 rr0 rec0 tm0 th0 df0 pk0 ch0 tr0]. simpl_sets.
  split; [exact Hch|].
  destruct (update_times_inv _ _ _ H3) as [(Ht0 & ->) | (Ht0 & Hf & ->)]; clear H3;
  rewrite update_threshold_run in H5; cbn [fst] in H5; simpl_sets;
  (split; [intro; congruence || assumption|]);
  destruct (update_diff_inv _ _ _ H5) as [(Hd & ->) | (Hd & pre & r2 & r1 & Hrec & ->)];
  clear H5; simpl_sets;
  destruct (detect_peak_inv _ _ _ _ H6)
    as (t & Ht & [(Hg & ->) | (Hg & d1 & d2 & Hd1 & Hd2 & ->)]);
  clear H6; simpl_sets;
  rewrite pad_and_count_run in H8; cbn [fst] in H8; simpl_sets;
  rewrite py_neg_nth_app1 in Ht; inversion Ht; subst t; clear Ht;
  destruct (update_rr_inv _ _ _ H8) as [(Hs & ->) | (Hs & Hf' & d & Hdd & ->)];
  clear H8; simpl_sets; rewrite Hg; cbn [andb];
  try (subst tm0); try (subst df0);
  try (destruct (append_last_inv _ _ _ _ _ Hrec) as [-> ->]; clear Hrec;
       destruct df0 as [|x xs]; [congruence|]);
  try (apply py_neg_nth_1_last in Hd1; subst d1);
  try (apply py_neg_nth_2_last in Hd2; destruct Hd2 as [Hd2 Hlen]; subst d2);
  try (pose proof (py_neg_nth_nonempty _ _ _ Hdd) as Hne;
       apply py_neg_nth_1_last in Hdd; subst d);
  rewrite Hs;
  repeat split; try reflexivity; try (intros; discriminate); auto;
  try (match goal with |- context [peak_test ?a ?b ?c ?d] =>
    destruct (peak_test a b c d); reflexivity end).
  all: destruct tm0; [congruence | reflexivity].
Qed.

(** ** Peak flags, [np.where] and [np.diff] *)

Lemma np_where_from_sum i l :
  flags01 l -> sum_Z l = Z.of_nat (length (np_where_from i l)).
Proof.
  intro H. revert i. induction H as [|x l Hx Hl IH]; intro i; [reflexivity|].
  change (sum_Z (x :: l)) with (x + sum_Z l). rewrite (IH (i + 1)).
  destruct Hx as [-> | ->]; [reflexivity|].
  change (np_where_from i (1 :: l)) with (i :: np_where_from (i + 1) l).
  change (length (i :: np_where_from (i + 1) l))
    with (S (length (np_where_from (i + 1) l))).
  lia.
Qed.

Lemma np_where_from_ones i l :
  flags01 l -> np_where_from (Z.of_nat i) l = map Z.of_nat (ones_from i l).
Proof.
  intro H. revert i. induction H as [|x l Hx Hl IH]; intro i; [reflexivity|].
  destruct Hx as [-> | ->]; cbn [np_where_from ones_from map Z.eqb Pos.eqb];
    replace (Z.of_nat i + 1) with (Z.of_nat (S i)) by lia; rewrite IH; reflexivity.
Qed.

Lemma np_where_from_ge i l y : In y (np_where_from i l) -> i <= y.
Proof.
  revert i. induction l as [|x l IH]; intros i H; [contradiction|].
  simpl in H. destruct (x =? 0).
  - specialize (IH _ H). lia.
  - destruct H as [<- | H]; [lia|]. specialize (IH _ H). lia.
Qed.

Lemma np_where_from_incr i l pre b a :
  np_where_from i l = pre ++ [b; a] -> b < a.
Proof.
  revert i pre. induction l as [|x l IH]; intros i pre H.
  - destruct pre; discriminate.
  - simpl in H. destruct (x =? 0); [eapply IH; exact H|].
    destruct pre as [|p pre]; simpl in H; inversion H; subst.
    + assert (Hin : In a (np_where_from (b + 1) l)) by (rewrite H2; left; reflexivity).
      apply np_where_from_ge in Hin. lia.
    + eapply IH. exact H2.
Qed.

Lemma np_diff_length l : length (np_diff l) = (length l - 1)%nat.
Proof.
  induction l as [|x [|y l] IH]; [reflexivity | reflexivity|].
  change (np_diff (x :: y :: l)) with ((y - x) :: np_diff (y :: l)).
  simpl length in *. rewrite IH. lia.
Qed.

Lemma np_diff_snoc2 pre b a : exists q, np_diff (pre ++ [b; a]) = q ++ [a - b].
Proof.
  induction pre as [|x pre IH].
  - exists []. reflexivity.
  - destruct IH as (q & Hq). destruct pre as [|y pre].
    + exists [b - x]. reflexivity.
    + exists ((y - x) :: q). simpl. simpl in Hq. rewrite Hq. reflexivity.
Qed.

Lemma last_two {A} (l : list A) : (2 <= length l)%nat -> exists pre b a, l = pre ++ [b; a].
Proof.
  intro H. destruct (@exists_last _ l) as (l1 & a & ->);
    [intro E; subst; simpl in H; lia|].
  rewrite length_app in H. simpl in H.
  destruct (@exists_last _ l1) as (pre & b & ->); [intro E; subst; simpl in H; lia|].
  exists pre, b, a. rewrite <- app_assoc. reflexivity.
Qed.

(** With three or more registered peaks, the last RR difference is positive
    and is the distance between the two last peak positions. *)
Lemma rr_difference pk :
  flags01 pk -> 2 < sum_Z pk ->
  exists pre last0 prev,
    rev (peak_positions pk) = last0 :: prev :: rev pre /\
    np_where pk = map Z.of_nat (pre ++ [prev; last0]) /\
    last (np_diff (np_where pk)) 0 = Z.of_nat last0 - Z.of_nat prev /\
    (prev < last0)%nat /\ (3 <= length (peak_positions pk))%nat.
Proof.
  intros H01 Hs.
  rewrite (np_where_from_sum 0 pk H01) in Hs.
  unfold np_where, peak_positions.
  pose proof (np_where_from_ones 0 pk H01) as Hw. simpl Z.of_nat in Hw.
  rewrite Hw in *. rewrite length_map in Hs.
  destruct (last_two (ones_from 0 pk)) as (pre & b & a & Hpa); [lia|].
  exists pre, a, b. rewrite Hpa. rewrite rev_app_distr. simpl.
  split; [reflexivity|]. split; [reflexivity|].
  rewrite map_app. simpl.
  destruct (np_diff_snoc2 (map Z.of_nat pre) (Z.of_nat b) (Z.of_nat a)) as (q & ->).
  rewrite last_last. split; [reflexivity|].
  pose proof (np_where_from_incr 0 pk (map Z.of_nat pre) (Z.of_nat b) (Z.of_nat a)) as Hi.
  rewrite Hw, Hpa, map_app in Hi. simpl in Hi. specialize (Hi eq_refl).
  split; [lia|]. rewrite Hpa, length_app in Hs. rewrite length_app. simpl in *. lia.
Qed.

(** ** The invariant of reachable sessions *)

Lemma shape_inv_init trig sf ch : shape_inv (init_fields trig sf ch).
Proof.
  unfold shape_inv, init_fields. cbn [length times threshold instant_rr recording
    peaks lag channels diff sfreq].
  split; [reflexivity|]. split; [reflexivity|]. split; [reflexivity|].
  split; [constructor|]. split; [lia|]. split; [destruct ch; discriminate|].
  split; [intros _; reflexivity|]. split; [intro H; contradiction H; reflexivity|].
  split; [intro H; inversion H|]. intros _; constructor.
Qed.

Lemma rr_entry_nonneg d sf : 0 <= d -> 0 < sf -> (0 <= inject_Z d / inject_Z sf * 1000)%Q.
Proof.
  intros Hd Hsf. apply Qmult_le_0_compat; [|discriminate].
  apply Qmult_le_0_compat.
  - change 0%Q with (inject_Z 0). rewrite <- Zle_Qle. exact Hd.
  - apply Qinv_le_0_compat. change 0%Q with (inject_Z 0). rewrite <- Zle_Qle. lia.
Qed.

Lemma shape_inv_add v w s s' :
  shape_inv s -> add_paquet v w s = (s', inr tt) -> shape_inv s'.
Proof.
  intros (Htm & Hth & Hrr & H01 & Hlag & Hch & Hnil & Hcons & Hsf & Hpos) H.
  destruct (add_paquet_effect _ _ _ _ H)
    as (Hch0 & Htsf & Hgt & Hrec & Hf & Hd & Hc & Htr & Htimes & Hthr & Hdiff
        & Hpk & Hlg & Hirr & Hrrok).
  assert (Hchn : channels s = None) by (destruct Hch0; congruence).
  (* the peak flags before the peak test *)
  assert (HP0 : flags01 (new_peaks0 s v) /\
                length (new_peaks0 s v) = S (length (recording s))).
  { unfold new_peaks0. destruct (diff s) eqn:Hds.
    - split; [apply Forall_forall; intros x Hx; apply repeat_spec in Hx; auto|].
      rewrite repeat_length, length_app. simpl. lia.
    - split; [exact H01|].
      destruct (recording s) eqn:Hrs; [specialize (Hnil eq_refl); discriminate|].
      apply Hcons. discriminate. }
  destruct HP0 as (HP01 & HPlen).
  unfold shape_inv. rewrite Hrec, Hf, Hc, Hpk, Hlg, Hthr, Hirr, Hdiff, Htimes.
  rewrite !length_app. cbn [length].
  repeat split.
  - destruct (times s) eqn:Hts; simpl in *; [lia|].
    rewrite length_app. simpl in *. lia.
  - lia.
  - lia.
  - destruct (registers w s v); [|destruct (0 <=? lag s)];
      unfold flags01 in *; rewrite ?Forall_app; auto.
  - destruct (registers w s v); lia.
  - rewrite Hchn. discriminate.
  - intro E. destruct (recording s); discriminate.
  - exact Hchn.
  - unfold new_diff. destruct (diff s) eqn:Hds.
    + rewrite np_diff_length, length_app. simpl. lia.
    + rewrite length_app. simpl.
      destruct (recording s) eqn:Hrs; [specialize (Hnil eq_refl); discriminate|].
      destruct (Hcons ltac:(discriminate)) as (_ & Hl & _). simpl in *. lia.
  - destruct (registers w s v) eqn:Hreg; [rewrite length_app; simpl; lia|].
    rewrite (proj2 (Z.leb_le 0 (lag s)) Hlag), length_app. simpl. lia.
  - intro H2. apply Htsf. intro Et. rewrite Et in Htm. simpl in Htm.
    destruct (recording s); simpl in *; lia.
  - intro Hsf0. apply Forall_app. split; [apply Hpos; exact Hsf0|].
    constructor; [|constructor].
    destruct (2 <? sum_Z _) eqn:Hs2; [|apply Qle_refl].
    apply Z.ltb_lt in Hs2.
    assert (H01' : flags01 (peaks s')).
    { rewrite Hpk. destruct (registers w s v); [|destruct (0 <=? lag s)];
        unfold flags01 in *; rewrite ?Forall_app; auto. }
    destruct (rr_difference _ H01' Hs2) as (pre & a & b & _ & _ & -> & Hab & _).
    apply rr_entry_nonneg; [lia | exact Hsf0].
Qed.

Lemma reachable_shape s : reachable s -> shape_inv s.
Proof.
  induction 1.
  - apply shape_inv_init.
  - eapply shape_inv_add; eassumption.
  - apply shape_inv_init.
Qed.

(** ** Spacing of the registered peaks *)

Lemma nth_error_snoc {A} (l : list A) x y i :
  nth_error (l ++ [x]) i = Some y ->
  ((i < length l)%nat /\ nth_error l i = Some y) \/ (i = length l /\ x = y).
Proof.
  intro H. destruct (Nat.lt_ge_cases i (length l)) as [Hi|Hi].
  - left. rewrite nth_error_app1 in H by exact Hi. auto.
  - right. rewrite nth_error_app2 in H by exact Hi.
    destruct (i - length l)%nat eqn:E; simpl in H.
    + split; [lia | congruence].
    + destruct n; discriminate.
Qed.

Lemma sep_snoc1 d lg l :
  peaks_separated d l -> lag_bound lg l -> d < lg ->
  peaks_separated d (l ++ [1]) /\ lag_bound 0 (l ++ [1]).
Proof.
  intros Hs Hb Hd. split.
  - intros i j Hij Hi Hj.
    apply nth_error_snoc in Hi. apply nth_error_snoc in Hj.
    destruct Hi as [(Hi & Hi') | (-> & _)]; destruct Hj as [(Hj & Hj') | (-> & _)].
    + apply Hs; assumption.
    + specialize (Hb _ Hi'). lia.
    + lia.
    + lia.
  - intros i Hi. apply nth_error_snoc in Hi. rewrite length_app. simpl.
    destruct Hi as [(Hi & _) | (-> & _)]; lia.
Qed.

Lemma sep_snoc0 d lg l :
  peaks_separated d l -> lag_bound lg l ->
  peaks_separated d (l ++ [0]) /\ lag_bound (lg + 1) (l ++ [0]).
Proof.
  intros Hs Hb. split.
  - intros i j Hij Hi Hj.
    apply nth_error_snoc in Hi. apply nth_error_snoc in Hj.
    destruct Hi as [(Hi & Hi') | (_ & E)]; [|discriminate].
    destruct Hj as [(Hj & Hj') | (_ & E)]; [|discriminate].
    apply Hs; assumption.
  - intros i Hi. apply nth_error_snoc in Hi. rewrite length_app. simpl.
    destruct Hi as [(Hi & Hi') | (_ & E)]; [|discriminate].
    specialize (Hb _ Hi'). lia.
Qed.

Lemma repeat_no_one n i : nth_error (repeat 0 n) i <> Some 1.
Proof.
  intro H. apply nth_error_In, repeat_spec in H. discriminate.
Qed.

Lemma sep_new_peaks0 s v :
  sep_inv s ->
  peaks_separated (dist s) (new_peaks0 s v) /\ lag_bound (lag s) (new_peaks0 s v).
Proof.
  intros (Hs & Hb). unfold new_peaks0. destruct (diff s); [|auto].
  split.
  - intros i j _ Hi. exfalso. eapply repeat_no_one; exact Hi.
  - intros i Hi. exfalso. eapply repeat_no_one; exact Hi.
Qed.

Lemma registers_lag w s v : registers w s v = true -> dist s < lag s.
Proof.
  unfold registers, peak_test. intro H.
  apply andb_prop in H. destruct H as (_ & H).
  apply andb_prop in H. destruct H as (_ & H). apply Z.ltb_lt, H.
Qed.

Lemma sep_inv_init trig sf ch : sep_inv (init_fields trig sf ch).
Proof.
  split.
  - intros i j _ Hi. destruct i; discriminate.
  - intros i Hi. destruct i; discriminate.
Qed.

Lemma sep_inv_add v w s s' :
  shape_inv s -> sep_inv s -> add_paquet v w s = (s', inr tt) -> sep_inv s'.
Proof.
  intros Hsh Hsep H.
  destruct (add_paquet_effect _ _ _ _ H)
    as (_ & _ & _ & _ & _ & Hd & _ & _ & _ & _ & _ & Hpk & Hlg & _ & _).
  destruct (sep_new_peaks0 _ v Hsep) as (Hs0 & Hb0).
  unfold sep_inv. rewrite Hd, Hpk, Hlg.
  destruct (registers w s v) eqn:Hreg.
  - replace (-1 + 1) with 0 by lia.
    apply sep_snoc1 with (lg := lag s); [exact Hs0 | exact Hb0 | eapply registers_lag; exact Hreg].
  - destruct Hsh as (_ & _ & _ & _ & Hlag & _).
    rewrite (proj2 (Z.leb_le 0 (lag s)) Hlag).
    apply sep_snoc0; assumption.
Qed.

Lemma reachable_sep s : reachable s -> sep_inv s.
Proof.
  intro Hr. induction Hr.
  - apply sep_inv_init.
  - eapply sep_inv_add; [apply reachable_shape | |]; eassumption.
  - apply sep_inv_init.
Qed.

(** ** The blocks of [add_paquet] return normally when their reads are in range *)

Lemma neg_index_run {A} (l : list A) k x s :
  py_neg_nth l k = Some x -> neg_index l k s = (s, inr x).
Proof. unfold neg_index. intros ->. reflexivity. Qed.

Lemma py_neg_nth_two_1 {A} (pre : list A) a b : py_neg_nth (pre ++ [a; b]) 1 = Some b.
Proof.
  replace (pre ++ [a; b]) with ((pre ++ [a]) ++ [b]) by (rewrite <- app_assoc; reflexivity).
  apply py_neg_nth_app1.
Qed.

Lemma update_channels_run s : channels s = None -> update_channels s = (s, inr tt).
Proof. intro H. unfold update_channels, bind, get. rewrite H. reflexivity. Qed.

Lemma update_times_run s :
  sfreq s <> 0 ->
  update_times s =
  (set_times s (match times s with
                | [] => [0%Q]
                | _ => times s ++
                         [(inject_Z (Z.of_nat (length (times s))) / inject_Z (sfreq s))%Q]
                end), inr tt).
Proof.
  intro H. unfold update_times, bind at 1, get. cbv beta iota.
  destruct (times s) eqn:Ht; [reflexivity|].
  unfold bind, truediv, ret, modify. rewrite (proj2 (Z.eqb_neq _ _) H).
  cbv beta iota. rewrite Ht. reflexivity.
Qed.

Lemma update_diff_run_nil s :
  diff s = [] ->
  update_diff s =
  (set_peaks (set_diff s (np_diff (recording s))) (repeat 0 (length (recording s))), inr tt).
Proof. intro H. unfold update_diff, bind, get. rewrite H. reflexivity. Qed.

Lemma update_diff_run_cons s pre r2 r1 :
  diff s <> [] -> recording s = pre ++ [r2; r1] ->
  update_diff s = (set_diff s (diff s ++ [r1 - r2]), inr tt).
Proof.
  intros Hd Hr. unfold update_diff, bind at 1, get. cbv beta iota.
  destruct (diff s) eqn:E; [contradiction|]. rewrite <- E.
  assert (H1 : py_neg_nth (recording s) 1 = Some r1) by (rewrite Hr; apply py_neg_nth_two_1).
  assert (H2 : py_neg_nth (recording s) 2 = Some r2) by (rewrite Hr; apply py_neg_nth_app2).
  rewrite (bind_run _ _ _ _ _ (neg_index_run _ _ _ s H1)).
  rewrite (bind_run _ _ _ _ _ (neg_index_run _ _ _ s H2)).
  reflexivity.
Qed.

Lemma detect_peak_run v s t :
  py_neg_nth (threshold s) 1 = Some t ->
  (gt_thr v t = true -> (2 <= length (diff s))%nat) ->
  exists s', detect_peak v s = (s', inr tt).
Proof.
  intros Ht Hd. unfold detect_peak, bind at 1, get. cbv beta iota.
  rewrite (bind_run _ _ _ _ _ (neg_index_run _ _ _ s Ht)).
  destruct (gt_thr v t) eqn:Hg; [|eexists; reflexivity].
  destruct (last_two _ (Hd eq_refl)) as (pre & d2 & d1 & Hdf).
  assert (H1 : py_neg_nth (diff s) 1 = Some d1) by (rewrite Hdf; apply py_neg_nth_two_1).
  assert (H2 : py_neg_nth (diff s) 2 = Some d2) by (rewrite Hdf; apply py_neg_nth_app2).
  rewrite (bind_run _ _ _ _ _ (neg_index_run _ _ _ s H1)).
  rewrite (bind_run _ _ _ _ _ (neg_index_run _ _ _ s H2)).
  destruct ((d1 =? 0) || xorb (0 <? d1) (0 <? d2)), (0 <? d2), (dist s <? lag s);
    eexists; reflexivity.
Qed.

Lemma update_rr_run s :
  sfreq s <> 0 -> flags01 (peaks s) -> exists s', update_rr s = (s', inr tt).
Proof.
  intros Hf H01. unfold update_rr, bind at 1, get. cbv beta iota.
  destruct (2 <? sum_Z (peaks s)) eqn:Hs; [|eexists; reflexivity].
  apply Z.ltb_lt in Hs.
  destruct (rr_difference _ H01 Hs) as (pre & a & b & _ & Hw & _).
  rewrite map_app in Hw. cbn [map] in Hw.
  destruct (np_diff_snoc2 (map Z.of_nat pre) (Z.of_nat b) (Z.of_nat a)) as (q & Hq).
  rewrite <- Hw in Hq.
  assert (H1 : py_neg_nth (np_diff (np_where (peaks s))) 1 = Some (Z.of_nat a - Z.of_nat b))
    by (rewrite Hq; apply py_neg_nth_app1).
  rewrite (bind_run _ _ _ _ _ (neg_index_run _ _ _ s H1)).
  unfold bind, truediv. rewrite (proj2 (Z.eqb_neq _ _) Hf). eexists; reflexivity.
Qed.

Lemma new_peaks0_flags s v : flags01 (peaks s) -> flags01 (new_peaks0 s v).
Proof.
  intro H. unfold new_peaks0. destruct (diff s); [|exact H].
  apply Forall_forall. intros x Hx. apply repeat_spec in Hx. auto.
Qed.

Lemma flags01_snoc l x : flags01 l -> x = 0 \/ x = 1 -> flags01 (l ++ [x]).
Proof. intros H Hx. apply Forall_app. split; [exact H | constructor; auto]. Qed.

(** A session of the invariant, without channels and with [sfreq <> 0], always
    completes [add_paquet]. *)
Lemma add_paquet_total v w s :
  shape_inv s -> channels s = None -> sfreq s <> 0 ->
  exists s', add_paquet v w s = (s', inr tt).
Proof.
  intros Hsh Hch Hf.
  destruct Hsh as (Htm & Hth & Hrr & H01 & Hlag & _ & Hnil & Hcons & _ & _).
  pose proof (update_channels_run (set_recording s (recording s ++ [v])) Hch) as H2.
  pose proof (update_times_run (set_recording s (recording s ++ [v])) Hf) as H3.
  match type of H3 with update_times _ = (?x, _) => set (s3 := x) in H3 end.
  assert (H5 : exists s5, update_diff (fst (update_threshold w s3)) = (s5, inr tt) /\
    diff s5 = new_diff s v /\ peaks s5 = new_peaks0 s v /\
    threshold s5 = threshold s ++ [new_thr w s v] /\ sfreq s5 = sfreq s /\
    lag s5 = lag s /\ dist s5 = dist s).
  { rewrite update_threshold_run. cbn [fst]. unfold new_diff, new_peaks0.
    destruct (diff s) eqn:Hd.
    - rewrite update_diff_run_nil by exact Hd. eexists. split; [reflexivity|].
      repeat split; reflexivity.
    - assert (Hr0 : recording s <> []) by (intro E; specialize (Hnil E); congruence).
      destruct (exists_last Hr0) as (pre & r2 & Hr).
      rewrite (update_diff_run_cons _ pre r2 v).
      + eexists. split; [reflexivity|]. rewrite Hr, last_last.
        subst s3. simpl_sets. rewrite Hd. repeat split; reflexivity.
      + subst s3. simpl_sets. rewrite Hd. discriminate.
      + subst s3. simpl_sets. rewrite Hr, <- app_assoc. reflexivity. }
  destruct H5 as (s5 & H5 & Hd5 & Hp5 & Ht5 & Hf5 & Hl5 & Hds5).
  assert (Ht : py_neg_nth (threshold s5) 1 = Some (new_thr w s v))
    by (rewrite Ht5; apply py_neg_nth_app1).
  assert (Hg2 : gt_thr v (new_thr w s v) = true -> (2 <= length (diff s5))%nat).
  { rewrite Hd5. unfold new_diff. destruct (diff s) eqn:Hd.
    - intro Hg. exfalso. unfold new_thr in Hg.
      destruct (recording s) as [|x [|y rs]] eqn:Hr.
      + cbn [app] in Hg. rewrite (proj1 (early_samples_not_above 0 v _)) in Hg.
        discriminate.
      + cbn [app] in Hg. rewrite (proj2 (early_samples_not_above x v _)) in Hg.
        discriminate.
      + destruct (Hcons ltac:(discriminate)) as (_ & Hl & _).
        simpl in Hl. lia.
    - intros _. rewrite length_app. simpl. lia. }
  destruct (detect_peak_run v s5 _ Ht Hg2) as (s6 & H6).
  assert (Hs6 : sfreq s6 = sfreq s /\ flags01 (peaks s6)).
  { pose proof (new_peaks0_flags s v H01) as Hp.
    destruct (detect_peak_inv _ _ _ _ H6)
      as (t & _ & [(_ & ->) | (_ & d1 & d2 & _ & _ & ->)]).
    - rewrite Hp5. auto.
    - simpl_sets. split; [exact Hf5|]. rewrite Hp5.
      destruct (peak_test d1 d2 (lag s5) (dist s5)); [|exact Hp].
      apply flags01_snoc; auto. }
  destruct Hs6 as (Hf6 & Hp6).
  destruct (update_rr_run (fst (pad_and_count s6))) as (s' & H8).
  - rewrite pad_and_count_run. simpl_sets. rewrite Hf6. exact Hf.
  - rewrite pad_and_count_run. simpl_sets.
    destruct (0 <=? lag s6); [apply flags01_snoc; auto | exact Hp6].
  - exists s'. apply add_paquet_steps. exists s3, s5, s6. auto.
Qed.

(** ** Runs of several ingests *)

Lemma add_paquets_cons w v vs s :
  add_paquets w (v :: vs) s =
  match add_paquet v w s with
  | (s1, inl e) => (s1, inl e)
  | (s1, inr _) => add_paquets w vs s1
  end.
Proof. reflexivity. Qed.

Lemma add_paquets_reachable w vs s s' :
  reachable s -> add_paquets w vs s = (s', inr tt) -> reachable s'.
Proof.
  revert s. induction vs as [|v vs IH]; intros s Hr H.
  - inv_pair H. exact Hr.
  - rewrite add_paquets_cons in H.
    destruct (add_paquet v w s) as [s1 [e|[]]] eqn:H1; [discriminate|].
    eapply IH; [eapply reach_add; eassumption | exact H].
Qed.

Lemma add_paquets_total w vs s :
  reachable s -> channels s = None -> sfreq s <> 0 ->
  exists s', add_paquets w vs s = (s', inr tt) /\ reachable s' /\
    channels s' = None /\ sfreq s' = sfreq s /\ recording s' = recording s ++ vs.
Proof.
  revert s. induction vs as [|v vs IH]; intros s Hr Hch Hf.
  - exists s. rewrite app_nil_r. repeat split; assumption.
  - destruct (add_paquet_total v w s (reachable_shape s Hr) Hch Hf) as (s1 & H1).
    destruct (add_paquet_effect _ _ _ _ H1)
      as (_ & _ & _ & Hrec & Hf1 & _ & Hc1 & _).
    destruct (IH s1) as (s' & H' & Hr' & Hc' & Hf' & Hrec');
      [eapply reach_add; eassumption | congruence | congruence |].
    exists s'. rewrite add_paquets_cons, H1.
    repeat split; try assumption; try congruence.
    rewrite Hrec', Hrec, <- app_assoc. reflexivity.
Qed.

(** ** Peak counts *)

Lemma peak_count pk : flags01 pk -> sum_Z pk = Z.of_nat (length (peak_positions pk)).
Proof.
  intro H. rewrite (np_where_from_sum 0 pk H).
  pose proof (np_where_from_ones 0 pk H) as Hw. simpl Z.of_nat in Hw.
  unfold np_where, peak_positions. rewrite Hw, length_map. reflexivity.
Qed.

(** ** The peak test, with signs *)

Lemma peak_test_spec d1 d2 lg ds :
  peak_test d1 d2 lg ds = true <->
  (d1 = 0 \/ Z.sgn d1 <> Z.sgn d2) /\ 0 < d2 /\ ds < lg.
Proof.
  unfold peak_test. rewrite !andb_true_iff, orb_true_iff, Z.eqb_eq, !Z.ltb_lt.
  destruct (Z.ltb_spec 0 d1), (Z.ltb_spec 0 d2); cbn [xorb].
  - rewrite (Z.sgn_pos d1), (Z.sgn_pos d2) by lia. intuition (try discriminate; lia).
  - intuition (try discriminate; lia).
  - split.
    + intros ((_ & H2) & H3). split; [|lia].
      destruct (Z.eq_dec d1 0); [auto|]. right.
      rewrite (Z.sgn_neg d1), (Z.sgn_pos d2) by lia. discriminate.
    + intros (_ & H2 & H3). intuition.
  - intuition (try discriminate; lia).
Qed.

(** ** The threshold comparison over the reals *)

Lemma Q2R_inject_Z z : Q2R (inject_Z z) = IZR z.
Proof. unfold Q2R. simpl. rewrite Rinv_1. ring. Qed.

Lemma negb_Qle_bool a b : negb (Qle_bool a b) = true <-> (b < a)%Q.
Proof.
  rewrite negb_true_iff. split; intro H.
  - apply Qnot_le_lt. intro H'. apply Qle_bool_iff in H'. congruence.
  - destruct (Qle_bool a b) eqn:E; [|reflexivity].
    apply Qle_bool_iff in E. exfalso. exact (Qlt_not_le _ _ H E).
Qed.

Lemma gt_thr_real v t :
  (0 <= thr_var t)%Q -> gt_thr v (Some t) = true <-> (thr_real t < IZR v)%R.
Proof.
  intro Hv. unfold gt_thr, thr_real. rewrite andb_true_iff, !negb_Qle_bool.
  set (d := (inject_Z v - thr_mean t)%Q).
  assert (Hd : Q2R d = (IZR v - Q2R (thr_mean t))%R)
    by (unfold d; rewrite Q2R_minus, Q2R_inject_Z; reflexivity).
  apply Qle_Rle in Hv. rewrite RMicromega.Q2R_0 in Hv.
  split.
  - intros (H1 & H2). apply Qlt_Rlt in H1. apply Qlt_Rlt in H2.
    rewrite RMicromega.Q2R_0 in H1. rewrite Q2R_mult in H2.
    assert (Hs : (sqrt (Q2R (thr_var t)) < Q2R d)%R).
    { rewrite <- (sqrt_square (Q2R d)) by lra. apply sqrt_lt_1_alt. lra. }
    lra.
  - intro H.
    assert (Hs : (sqrt (Q2R (thr_var t)) < Q2R d)%R) by lra.
    pose proof (sqrt_pos (Q2R (thr_var t))) as Hp.
    split.
    + apply Rlt_Qlt. rewrite RMicromega.Q2R_0. lra.
    + apply Rlt_Qlt. rewrite Q2R_mult.
      rewrite <- (sqrt_sqrt (Q2R (thr_var t))) by exact Hv. nra.
Qed.

(** ** [np.mean] and [np.var] over the reals *)

Lemma sum_Q_nonneg l : Forall (Qle 0) l -> (0 <= sum_Q l)%Q.
Proof.
  induction 1 as [|x l Hx Hl IH]; [apply Qle_refl|].
  change (sum_Q (x :: l)) with (x + sum_Q l)%Q.
  apply (Qplus_le_compat 0 x 0 (sum_Q l)) in Hx; [|exact IH]. exact Hx.
Qed.

Lemma np_var_nonneg w : (0 <= np_var w)%Q.
Proof.
  unfold np_var. apply Qmult_le_0_compat.
  - apply sum_Q_nonneg. apply Forall_forall. intros q Hq.
    apply in_map_iff in Hq. destruct Hq as (x & <- & _).
    destruct (inject_Z x - np_mean w)%Q as [n d]. unfold Qle, Qmult. simpl. nia.
  - apply Qinv_le_0_compat. change 0%Q with (inject_Z 0). rewrite <- Zle_Qle. lia.
Qed.

Lemma mean_plus_std_var w t : mean_plus_std w = Some t -> (0 <= thr_var t)%Q.
Proof.
  unfold mean_plus_std. destruct w; intro H; inversion H; subst. apply np_var_nonneg.
Qed.

Lemma sum_R_IZR l : sum_R l = IZR (sum_Z l).
Proof.
  induction l as [|x l IH]; [reflexivity|].
  unfold sum_R, sum_Z in *. simpl. rewrite IH, plus_IZR. reflexivity.
Qed.

Lemma inject_len_nz {A} (w : list A) : w <> [] -> ~ (inject_Z (Z.of_nat (length w)) == 0)%Q.
Proof.
  intros Hw E. unfold Qeq in E. simpl in E.
  destruct w; [contradiction|]. simpl in E. lia.
Qed.

Lemma Q2R_np_mean w : w <> [] -> Q2R (np_mean w) = spec_mean w.
Proof.
  intro Hw. unfold np_mean, spec_mean.
  rewrite Q2R_div by (apply inject_len_nz; exact Hw).
  rewrite !Q2R_inject_Z, sum_R_IZR, INR_IZR_INZ. reflexivity.
Qed.

Lemma Q2R_sumsq m l :
  Q2R (sum_Q (map (fun x => (inject_Z x - m) * (inject_Z x - m))%Q l)) =
  fold_right (fun x acc => (IZR x - Q2R m)^2 + acc)%R 0%R l.
Proof.
  induction l as [|x l IH]; [apply RMicromega.Q2R_0|].
  change (sum_Q (map (fun x => (inject_Z x - m) * (inject_Z x - m))%Q (x :: l)))
    with ((inject_Z x - m) * (inject_Z x - m) +
          sum_Q (map (fun x => (inject_Z x - m) * (inject_Z x - m))%Q l))%Q.
  rewrite Q2R_plus, Q2R_mult, Q2R_minus, Q2R_inject_Z, IH. simpl. ring.
Qed.

Lemma Q2R_np_var w :
  w <> [] ->
  Q2R (np_var w) =
  (fold_right (fun x acc => (IZR x - spec_mean w)^2 + acc)%R 0%R w / INR (length w))%R.
Proof.
  intro Hw. unfold np_var.
  rewrite Q2R_div by (apply inject_len_nz; exact Hw).
  rewrite Q2R_sumsq, Q2R_np_mean by exact Hw.
  rewrite Q2R_inject_Z, INR_IZR_INZ. reflexivity.
Qed.

(** On a non-empty window, [mean + std] is the threshold of the spec. *)
Lemma mean_plus_std_real w :
  w <> [] ->
  exists t, mean_plus_std w = Some t /\ thr_real t = spec_threshold w.
Proof.
  intro Hw. exists (mk_thr (np_mean w) (np_var w)). split.
  - destruct w; [contradiction | reflexivity].
  - unfold thr_real, spec_threshold, spec_std. cbn [thr_mean thr_var].
    rewrite Q2R_np_mean, Q2R_np_var by exact Hw. reflexivity.
Qed.

Lemma spec_threshold_single v : spec_threshold [v] = IZR v.
Proof.
  unfold spec_threshold, spec_std, spec_mean, sum_R. simpl.
  replace ((IZR v + 0) / 1)%R with (IZR v) by field.
  replace (((IZR v - IZR v) * ((IZR v - IZR v) * 1) + 0) / 1)%R with 0%R by field.
  rewrite sqrt_0. ring.
Qed.

(** [l[-W:]] for a window [W >= 1] is the last [W] values. *)
Lemma py_slice_from_lastn {A} (W : Z) (l : list A) :
  1 <= W -> py_slice_from (- W) l = lastn (Z.to_nat W) l.
Proof.
  intro HW. unfold py_slice_from, lastn.
  rewrite (proj2 (Z.leb_gt 0 (- W))) by lia. rewrite Z.opp_involutive. reflexivity.
Qed.

Lemma lastn_nonempty {A} k (l : list A) : (1 <= k)%nat -> l <> [] -> lastn k l <> [].
Proof.
  intros Hk Hl E. unfold lastn in E.
  apply (f_equal (@length A)) in E. rewrite length_skipn in E. simpl in E.
  destruct l; [contradiction|]. cbn [length] in E. lia.
Qed.

(** ** Only [update_threshold] writes the threshold, whatever the outcome *)

Lemma bind_cases {A B} (m : M A) (f : A -> M B) s s' r :
  bind m f s = (s', r) ->
  (exists e, m s = (s', inl e) /\ r = inl e) \/
  (exists s1 a, m s = (s1, inr a) /\ f a s1 = (s', r)).
Proof.
  unfold bind. destruct (m s) as [s1 [e|a]]; intro H.
  - left. inversion H; subst. eauto.
  - right. eauto.
Qed.

Lemma bind_keeps {A B} (m : M A) (f : A -> M B) :
  keeps_threshold m -> (forall a, keeps_threshold (f a)) -> keeps_threshold (bind m f).
Proof.
  intros Hm Hf s s' r H. apply bind_cases in H.
  destruct H as [(e & H & _) | (s1 & a & H1 & H2)].
  - eapply Hm. exact H.
  - rewrite (Hf a _ _ _ H2). eapply Hm. exact H1.
Qed.

Ltac keeps_tac :=
  let s := fresh "s" in let s' := fresh "s'" in let r := fresh "r" in
  let H := fresh "H" in
  intros s s' r H;
  unfold update_channels, update_times, update_diff, detect_peak, pad_and_count,
    update_rr, bind, get, modify, neg_index, truediv, ret, raise in H;
  repeat (cbv beta iota in H;
          match type of H with
          | context [match ?x with _ => _ end] =>
              match type of x with prod _ _ => fail 1 | _ => destruct x end
          end);
  inversion H; subst; reflexivity.

Lemma update_channels_keeps : keeps_threshold update_channels.
Proof. keeps_tac. Qed.

Lemma update_times_keeps : keeps_threshold update_times.
Proof. keeps_tac. Qed.

Lemma update_diff_keeps : keeps_threshold update_diff.
Proof. keeps_tac. Qed.

Lemma detect_peak_keeps v : keeps_threshold (detect_peak v).
Proof. keeps_tac. Qed.

Lemma pad_and_count_keeps : keeps_threshold pad_and_count.
Proof. keeps_tac. Qed.

Lemma update_rr_keeps : keeps_threshold update_rr.
Proof. keeps_tac. Qed.

Lemma after_threshold_keeps v :
  keeps_threshold
    (bind update_diff (fun _ : unit =>
     bind (detect_peak v) (fun _ : unit =>
     bind pad_and_count (fun _ : unit => update_rr)))).
Proof.
  apply bind_keeps; [exact update_diff_keeps | intros _].
  apply bind_keeps; [exact (detect_peak_keeps v) | intros _].
  apply bind_keeps; [exact pad_and_count_keeps | intros _].
  exact update_rr_keeps.
Qed.

(** Each call either raises before the threshold update and leaves the
    threshold alone, or appends [new_thr w s v] to it. *)
Lemma add_paquet_threshold v w s s' r :
  add_paquet v w s = (s', r) ->
  (exists e, r = inl e /\ threshold s' = threshold s) \/
  threshold s' = threshold s ++ [new_thr w s v].
Proof.
  unfold add_paquet. rewrite (bind_run _ _ _ _ _ (store_paquet_run v s)). intro H.
  apply bind_cases in H. destruct H as [(e & H2 & ->) | (s2 & [] & H2 & H)].
  { left. exists e. split; [reflexivity|]. apply update_channels_keeps in H2. exact H2. }
  pose proof H2 as H2'. apply update_channels_inv in H2'. destruct H2' as (-> & _).
  apply bind_cases in H. destruct H as [(e & H3 & ->) | (s3 & [] & H3 & H)].
  { left. exists e. split; [reflexivity|]. apply update_times_keeps in H3. exact H3. }
  rewrite (bind_run _ _ _ _ _ (update_threshold_run w s3)) in H.
  apply after_threshold_keeps in H. right. rewrite H.
  destruct (update_times_inv _ _ _ H3) as [(_ & ->) | (_ & _ & ->)]; reflexivity.
Qed.

(** ** The peak rule with the values the spec names *)

Lemma registers_spec w s v :
  diff s <> [] ->
  registers w s v = true <->
  spec_peak v (new_thr w s v) (last (diff s) 0) (v - last (recording s) 0)
    (lag s) (dist s).
Proof.
  intro Hd. unfold registers, new_diff.
  destruct (diff s) as [|d ds] eqn:E; [contradiction|]. rewrite <- E.
  rewrite last_last, removelast_last, andb_true_iff, peak_test_spec.
  unfold spec_peak.
  destruct (new_thr w s v) as [t|] eqn:Ht.
  - rewrite gt_thr_real by (eapply mean_plus_std_var; exact Ht). reflexivity.
  - simpl. split; [intros (H & _); discriminate | intros (H & _); contradiction].
Qed.

(** ** The claims *)

(** C1: the per-sample series do not all keep the length of the
    recording.  In a session created without auxiliary channels and with a
    non-zero sampling rate, every non-empty sequence of [n] ingests
    completes; afterwards [recording], [times], [threshold] and
    [instant_rr] have length [n] and [diff] has length [n - 1], but [peaks]
    has length [n + 1]: [peaks = [0] * len(recording)] already has an entry
    for the current sample, and [if self.lag >= 0: self.peaks.append(0)]
    appends one more. *)
Theorem peaks_one_longer_than_recording sf w vs (Hsf : sf <> 0) (Hne : vs <> []) :
  exists s, add_paquets w vs (Oximeter_new sf None) = (s, inr tt) /\
    length (recording s) = length vs /\ length (times s) = length vs /\
    length (threshold s) = length vs /\ length (instant_rr s) = length vs /\
    length (diff s) = (length vs - 1)%nat /\
    length (peaks s) = S (length vs).
Proof.
  destruct (add_paquets_total w vs (Oximeter_new sf None) (reach_new sf None)
              eq_refl Hsf) as (s & Hrun & Hr & _ & _ & Hrec).
  exists s. split; [exact Hrun|].
  cbn [recording Oximeter_new init_fields] in Hrec. rewrite app_nil_l in Hrec.
  destruct (reachable_shape s Hr)
    as (Htm & Hth & Hrr & _ & _ & _ & _ & Hcons & _ & _).
  rewrite Hrec in *.
  destruct vs as [|v vs']; [congruence|].
  destruct (Hcons ltac:(discriminate)) as (_ & Hl & Hp).
  cbn [length] in *. repeat split; lia.
Qed.

(** C2: when at least one differential is stored before the ingest (so that
    [diff[n-1]] and [diff[n]] both exist after it), the ingest completes,
    appends the threshold [t], and appends [d_new = v - recording[-1]] to
    [diff]; it registers a peak (appends 1, [lag] set to -1 and then
    incremented to 0) exactly when [v > t], [d_new = 0] or its sign differs
    from the one of [d_prev = diff[n-1]], [d_prev > 0] and [lag > dist];
    otherwise it appends 0 and increments [lag]. *)
Theorem peak_registration_rule s v w (Hr : reachable s)
  (Hd : (1 <= length (diff s))%nat) :
  exists s' t pre d_prev,
    add_paquet v w s = (s', inr tt) /\
    threshold s' = threshold s ++ [t] /\
    diff s = pre ++ [d_prev] /\
    diff s' = diff s ++ [v - last (recording s) 0] /\
    (spec_peak v t d_prev (v - last (recording s) 0) (lag s) (dist s) ->
       peaks s' = peaks s ++ [1] /\ lag s' = -1 + 1) /\
    (~ spec_peak v t d_prev (v - last (recording s) 0) (lag s) (dist s) ->
       peaks s' = peaks s ++ [0] /\ lag s' = lag s + 1).
Proof.
  destruct (reachable_shape s Hr)
    as (_ & _ & _ & _ & Hlag & _ & Hnil & Hcons & Hsf2 & _).
  assert (Hdn : diff s <> []) by (intro E; rewrite E in Hd; simpl in Hd; lia).
  assert (Hrn : recording s <> []) by (intro E; apply Hdn, Hnil, E).
  destruct (Hcons Hrn) as (Hch & Hl & _).
  assert (Hf : sfreq s <> 0) by (apply Hsf2; lia).
  destruct (add_paquet_total v w s (reachable_shape s Hr) Hch Hf) as (s' & Hok).
  destruct (add_paquet_effect _ _ _ _ Hok)
    as (_ & _ & _ & _ & _ & _ & _ & _ & _ & Hthr & Hdiff & Hpk & Hlg & _ & _).
  exists s', (new_thr w s v), (removelast (diff s)), (last (diff s) 0).
  assert (Hp0 : new_peaks0 s v = peaks s)
    by (unfold new_peaks0; destruct (diff s); [contradiction | reflexivity]).
  rewrite Hp0 in Hpk.
  split; [exact Hok|]. split; [exact Hthr|].
  split; [apply app_removelast_last; exact Hdn|].
  split; [rewrite Hdiff; unfold new_diff; destruct (diff s); [contradiction | reflexivity]|].
  split.
  - intro Hs. apply (registers_spec w s v Hdn) in Hs.
    rewrite Hs in Hpk, Hlg. auto.
  - intro Hs. destruct (registers w s v) eqn:Hreg.
    + exfalso. apply Hs. apply (registers_spec w s v Hdn). exact Hreg.
    + rewrite (proj2 (Z.leb_le 0 (lag s)) Hlag) in Hpk. auto.
Qed.

(** C3: in every session reachable by creation, ingests and resets, any two
    registered peaks (1 entries of [peaks], whose indices are the sample
    indices shifted by one) are more than [dist] entries apart. *)
Theorem peaks_spaced_beyond_dist s (Hr : reachable s) :
  peaks_separated (dist s) (peaks s).
Proof. apply (reachable_sep s Hr). Qed.

(** C5: on every ingest with a window of [W = int(window * sfreq) >= 1]
    samples, either the call raises before the threshold update and the
    threshold sequence is unchanged, or the appended threshold is
    [mean + std] (population deviation) of the last [W] values, or of all of
    them if fewer exist; with a single sample it is that sample's value. *)
Theorem threshold_is_mean_plus_std w s v s' r
  (HW : 1 <= window_samples w (sfreq s)) (Hrun : add_paquet v w s = (s', r)) :
  (exists e, r = inl e /\ threshold s' = threshold s) \/
  (exists t, threshold s' = threshold s ++ [Some t] /\
     thr_real t =
       spec_threshold (lastn (Z.to_nat (window_samples w (sfreq s))) (recording s ++ [v])) /\
     (recording s = [] -> thr_real t = IZR v)).
Proof.
  destruct (add_paquet_threshold _ _ _ _ _ Hrun) as [H | H]; [left; exact H | right].
  unfold new_thr in H. rewrite py_slice_from_lastn in H by exact HW.
  destruct (mean_plus_std_real
              (lastn (Z.to_nat (window_samples w (sfreq s))) (recording s ++ [v])))
    as (t & Ht & Hreal).
  { apply lastn_nonempty; [lia|]. intro E. apply app_eq_nil in E.
    destruct E as (_ & E). discriminate. }
  rewrite Ht in H. exists t. split; [exact H|]. split; [exact Hreal|].
  intro E. rewrite Hreal, E. unfold lastn. cbn [length app].
  replace (1 - Z.to_nat (window_samples w (sfreq s)))%nat with 0%nat by lia.
  apply spec_threshold_single.
Qed.

(** C6: for a reachable session with a positive sampling rate, an ingest
    appends to [instant_rr] the value [(i_last - i_prev) / sfreq * 1000]
    when three or more peaks are registered, [i_last] and [i_prev] being the
    indices of the two last peaks, and 0 otherwise; [instant_rr] then has
    the length of [recording] and no negative entry. *)
Theorem rr_update s s' v w (Hr : reachable s) (Hf : 0 < sfreq s)
  (Hok : add_paquet v w s = (s', inr tt)) :
  instant_rr s' = instant_rr s ++ [spec_rr (sfreq s) (peaks s')] /\
  length (instant_rr s') = length (recording s') /\
  Forall (Qle 0) (instant_rr s').
Proof.
  pose proof (reachable_shape _ (reach_add _ _ _ _ Hr Hok))
    as (_ & _ & Hrr & H01 & _ & _ & _ & _ & _ & Hpos).
  destruct (add_paquet_effect _ _ _ _ Hok)
    as (_ & _ & _ & _ & Hf' & _ & _ & _ & _ & _ & _ & _ & _ & Hirr & _).
  split; [|split; [exact Hrr | apply Hpos; rewrite Hf'; exact Hf]].
  rewrite Hirr. unfold spec_rr. do 2 f_equal.
  destruct (2 <? sum_Z (peaks s')) eqn:Hs.
  - apply Z.ltb_lt in Hs.
    destruct (rr_difference _ H01 Hs) as (pre & a & b & Hrev & _ & Hlast & _ & H3).
    rewrite Hlast, (proj2 (Nat.leb_le 3 _) H3), Hrev. reflexivity.
  - apply Z.ltb_ge in Hs. rewrite (peak_count _ H01) in Hs.
    rewrite (proj2 (Nat.leb_gt 3 (length (peak_positions (peaks s'))))) by lia.
    reflexivity.
Qed.

(** ** Concrete sessions *)

Lemma demo_session_reachable : reachable demo_session.
Proof.
  apply (add_paquets_reachable 1 [5; 5] (Oximeter_new 10 None)); [apply reach_new|].
  vm_compute. reflexivity.
Qed.

Lemma wave_session_reachable : reachable wave_session.
Proof.
  apply (add_paquets_reachable 1 wave (Oximeter_new 10 None)); [apply reach_new|].
  vm_compute. reflexivity.
Qed.

Lemma wave_session_peaks : peak_positions (peaks wave_session) = [9; 19; 29; 39; 49]%nat.
Proof. vm_compute. reflexivity. Qed.

(** ** Witnesses and counterexamples *)

(** C1: at the input [Oximeter(sfreq=10)] followed by the samples
    [1, 2, 3], [peaks] has 4 entries for 3 samples. *)
Lemma peaks_one_longer_than_recording_witness :
  10 <> 0 /\ [1; 2; 3] <> [] /\
  exists s, add_paquets 1 [1; 2; 3] (Oximeter_new 10 None) = (s, inr tt) /\
    length (recording s) = 3%nat /\ length (times s) = 3%nat /\
    length (threshold s) = 3%nat /\ length (instant_rr s) = 3%nat /\
    length (diff s) = 2%nat /\ length (peaks s) = 4%nat.
Proof.
  split; [discriminate|]. split; [discriminate|].
  exact (peaks_one_longer_than_recording 10 1 [1; 2; 3] ltac:(discriminate)
           ltac:(discriminate)).
Defined.

Lemma peak_registration_rule_witness :
  reachable demo_session /\ (1 <= length (diff demo_session))%nat /\
  exists s' t pre d_prev,
    add_paquet 7 1 demo_session = (s', inr tt) /\
    threshold s' = threshold demo_session ++ [t] /\
    diff demo_session = pre ++ [d_prev] /\
    diff s' = diff demo_session ++ [7 - last (recording demo_session) 0] /\
    (spec_peak 7 t d_prev (7 - last (recording demo_session) 0)
       (lag demo_session) (dist demo_session) ->
       peaks s' = peaks demo_session ++ [1] /\ lag s' = -1 + 1) /\
    (~ spec_peak 7 t d_prev (7 - last (recording demo_session) 0)
       (lag demo_session) (dist demo_session) ->
       peaks s' = peaks demo_session ++ [0] /\ lag s' = lag demo_session + 1).
Proof.
  assert (Hd : (1 <= length (diff demo_session))%nat) by (vm_compute; lia).
  split; [exact demo_session_reachable|]. split; [exact Hd|].
  exact (peak_registration_rule demo_session 7 1 demo_session_reachable Hd).
Defined.

Lemma peaks_spaced_beyond_dist_witness :
  reachable wave_session /\ peaks_separated (dist wave_session) (peaks wave_session) /\
  peak_positions (peaks wave_session) = [9; 19; 29; 39; 49]%nat.
Proof.
  split; [exact wave_session_reachable|].
  split; [exact (peaks_spaced_beyond_dist wave_session wave_session_reachable)|].
  exact wave_session_peaks.
Defined.

Lemma threshold_is_mean_plus_std_witness :
  1 <= window_samples 1 (sfreq demo_session) /\
  add_paquet 7 1 demo_session =
    (fst (add_paquet 7 1 demo_session), snd (add_paquet 7 1 demo_session)) /\
  ((exists e, snd (add_paquet 7 1 demo_session) = inl e /\
      threshold (fst (add_paquet 7 1 demo_session)) = threshold demo_session) \/
   (exists t, threshold (fst (add_paquet 7 1 demo_session)) =
                threshold demo_session ++ [Some t] /\
      thr_real t =
        spec_threshold (lastn (Z.to_nat (window_samples 1 (sfreq demo_session)))
                          (recording demo_session ++ [7])) /\
      (recording demo_session = [] -> thr_real t = IZR 7))).
Proof.
  assert (HW : 1 <= window_samples 1 (sfreq demo_session)) by (vm_compute; discriminate).
  split; [exact HW|]. split; [apply surjective_pairing|].
  exact (threshold_is_mean_plus_std 1 demo_session 7 _ _ HW (surjective_pairing _)).
Defined.

Lemma rr_update_witness :
  reachable wave_session /\ 0 < sfreq wave_session /\
  add_paquet 0 1 wave_session = (fst (add_paquet 0 1 wave_session), inr tt) /\
  instant_rr (fst (add_paquet 0 1 wave_session)) =
    instant_rr wave_session ++
      [spec_rr (sfreq wave_session) (peaks (fst (add_paquet 0 1 wave_session)))] /\
  length (instant_rr (fst (add_paquet 0 1 wave_session))) =
    length (recording (fst (add_paquet 0 1 wave_session))) /\
  Forall (Qle 0) (instant_rr (fst (add_paquet 0 1 wave_session))).
Proof.
  assert (Hf : 0 < sfreq wave_session) by (vm_compute; reflexivity).
  assert (Hok : add_paquet 0 1 wave_session = (fst (add_paquet 0 1 wave_session), inr tt))
    by (vm_compute; reflexivity).
  split; [exact wave_session_reachable|]. split; [exact Hf|]. split; [exact Hok|].
  exact (rr_update wave_session _ 0 1 wave_session_reachable Hf Hok).
Defined.

(** * The acquisition loops and the table of events *)

(** ** Frames in the input buffer and in the stream *)

Lemma serial_read_frame f b fut :
  length f = 5%nat -> serial_read 5 (mk_dev (f ++ b) fut) = (f, mk_dev b fut).
Proof.
  intro H. unfold serial_read; cbn [dev_buf dev_fut].
  rewrite length_app, H. rewrite (proj2 (Nat.leb_le 5 _)) by lia.
  rewrite <- H, firstn_app, firstn_all, Nat.sub_diag, firstn_O, app_nil_r.
  rewrite skipn_app, skipn_all, Nat.sub_diag, skipn_O. reflexivity.
Qed.

Lemma serial_read_stream f rest :
  length f = 5%nat -> serial_read 5 (mk_dev [] (f ++ rest)) = (f, mk_dev [] rest).
Proof.
  intro H. unfold serial_read; cbn [dev_buf dev_fut length]. cbn -[firstn skipn].
  rewrite <- H, firstn_app, firstn_all, Nat.sub_diag, firstn_O, app_nil_r.
  rewrite skipn_app, skipn_all, Nat.sub_diag, skipn_O. reflexivity.
Qed.

Lemma add_paquets_triggers w vs s s' r :
  add_paquets w vs s = (s', r) -> r = inr tt -> triggers s' = triggers s.
Proof.
  revert s. induction vs as [|v vs IH]; intros s H Hr.
  - inversion H; reflexivity.
  - rewrite add_paquets_cons in H.
    destruct (add_paquet v w s) as [s1 [e|[]]] eqn:H1; [inversion H; subst; discriminate|].
    rewrite (IH s1 H Hr). apply (add_paquet_effect _ _ _ _ H1).
Qed.

Lemma readInWaiting_frames fuel stop s fs b fut log s' :
  Forall frame_ok fs -> (length fs <= fuel)%nat ->
  add_paquets 1%Q (map byte2 fs) s = (s', inr tt) ->
  readInWaiting fuel stop s (mk_dev (concat fs ++ b) fut) log =
  readInWaiting (fuel - length fs) stop s' (mk_dev b fut) log.
Proof.
  revert fuel s. induction fs as [|f fs IH]; intros fuel s Hok Hf Hrun.
  - inversion Hrun; subst. rewrite Nat.sub_0_r. reflexivity.
  - inversion Hok as [|? ? [Hl Hc] Hok']; subst.
    destruct fuel as [|fuel]; [simpl in Hf; lia|].
    cbn [map] in Hrun. rewrite add_paquets_cons in Hrun.
    destruct (add_paquet (byte2 f) 1%Q s) as [s1 [e|[]]] eqn:H1; [discriminate|].
    cbn [concat]. rewrite <- app_assoc. cbn [readInWaiting]. unfold inWaiting.
    cbn [dev_buf]. rewrite length_app, Hl.
    rewrite (proj2 (Nat.leb_le 5 _)) by lia.
    rewrite serial_read_frame by exact Hl. rewrite Hc.
    unfold byte2 in H1. rewrite H1.
    rewrite (IH fuel s1 Hok') by (simpl in Hf; lia || assumption).
    reflexivity.
Qed.


(** X2: with [stop = True], the first corrupted frame raises [ValueError]; the valid frames before it stay ingested and the 5 bytes of the corrupted frame are consumed. *)
Theorem readInWaiting_stop_raises fuel s fs bad rest fut log s'
  (Hok : Forall frame_ok fs) (Hbad : bad_frame bad)
  (Hfuel : (length fs < fuel)%nat)
  (Hrun : add_paquets 1%Q (map byte2 fs) s = (s', inr tt)) :
  readInWaiting fuel true s (mk_dev (concat fs ++ bad ++ rest) fut) log =
  (s', mk_dev rest fut, log, Raised ValueError).
Proof.
  destruct Hbad as [Hl Hc].
  rewrite (readInWaiting_frames fuel true s fs (bad ++ rest) fut log s' Hok)
    by (lia || exact Hrun).
  destruct (fuel - length fs)%nat as [|f] eqn:E; [lia|].
  cbn [readInWaiting]. unfold inWaiting. cbn [dev_buf].
  rewrite length_app, Hl, (proj2 (Nat.leb_le 5 _)) by lia.
  rewrite serial_read_frame by exact Hl. rewrite Hc. reflexivity.
Qed.

Lemma synch_loop_skips bads g rest buf k :
  Forall bad_frame bads -> frame_ok g ->
  synch_loop (length bads + S k) (mk_dev buf (concat bads ++ g ++ rest)) =
  (mk_dev [] rest, Done).
Proof.
  intros Hb [Hl Hc]. revert buf. induction Hb as [|b bads [Hbl Hbc] Hb IH]; intro buf.
  - cbn [length Nat.add synch_loop concat app]. unfold reset_input_buffer. cbn [dev_fut].
    rewrite serial_read_stream by exact Hl. rewrite Hc. reflexivity.
  - cbn [length Nat.add synch_loop concat]. unfold reset_input_buffer at 1. cbn [dev_fut].
    rewrite <- app_assoc, serial_read_stream by exact Hbl. rewrite Hbc.
    apply IH.
Qed.

(** X4: [setup] resets the session, drops the buffered bytes and reads the stream frame by frame until the first valid frame, which it consumes; it returns with the input buffer empty. *)
Theorem setup_skips_corrupt_frames k s buf bads g rest
  (Hb : Forall bad_frame bads) (Hg : frame_ok g) :
  setup (length bads + S k) s (mk_dev buf (concat bads ++ g ++ rest)) =
  (reset_session s, mk_dev [] rest, Done).
Proof.
  unfold setup. rewrite synch_loop_skips by assumption. reflexivity.
Qed.

(** X3: with [stop = False] and a non-empty [triggers], a corrupted frame prints [Synch error], sets the last trigger to [-1], drops the rest of the buffer, skips the corrupted frames that follow in the stream and consumes the next valid frame without ingesting it. *)
Theorem readInWaiting_resynchronises fuel s tr fs bad rest bads g fut log s'
  (Htr : triggers s = Some tr) (Hne : tr <> [])
  (Hok : Forall frame_ok fs) (Hbad : bad_frame bad)
  (Hb : Forall bad_frame bads) (Hg : frame_ok g)
  (Hfuel : (length fs + length bads + 2 <= fuel)%nat)
  (Hrun : add_paquets 1%Q (map byte2 fs) s = (s', inr tt)) :
  readInWaiting fuel false s
    (mk_dev (concat fs ++ bad ++ rest) (concat bads ++ g ++ fut)) log =
  (set_triggers s' (Some (removelast tr ++ [-1])), mk_dev [] fut,
   log ++ ["Synch error"%string], Done).
Proof.
  destruct Hbad as [Hl Hc].
  pose proof (add_paquets_triggers _ _ _ _ _ Hrun eq_refl) as Htr'.
  rewrite (readInWaiting_frames fuel false s fs (bad ++ rest) _ log s' Hok)
    by (lia || exact Hrun).
  destruct (fuel - length fs)%nat as [|f] eqn:E; [lia|].
  cbn [readInWaiting]. unfold inWaiting. cbn [dev_buf].
  rewrite length_app, Hl, (proj2 (Nat.leb_le 5 _)) by lia.
  rewrite serial_read_frame by exact Hl. rewrite Hc.
  unfold set_last_trigger. rewrite Htr', Htr.
  destruct tr as [|t0 tr0]; [congruence|].
  replace f with (length bads + S (f - length bads - 1))%nat by lia.
  rewrite synch_loop_skips by assumption.
  replace (length bads + S (f - length bads - 1))%nat
    with (S (length bads + (f - length bads - 1)))%nat by lia.
  reflexivity.
Qed.

(** ** [read] *)

Lemma arrive_stream k d : dev_buf (arrive k d) ++ dev_fut (arrive k d) = dev_buf d ++ dev_fut d.
Proof. unfold arrive; cbn [dev_buf dev_fut]. rewrite <- app_assoc, firstn_skipn. reflexivity. Qed.

Lemma firstn_skipn_frame (f l : list Z) :
  length f = 5%nat -> firstn 5 (f ++ l) = f /\ skipn 5 (f ++ l) = l.
Proof.
  intro H. rewrite <- H, firstn_app, firstn_all, Nat.sub_diag, firstn_O, app_nil_r.
  rewrite skipn_app, skipn_all, Nat.sub_diag, skipn_O. auto.
Qed.

Lemma serial_read_prefix d f l :
  length f = 5%nat -> (5 <= length (dev_buf d))%nat ->
  dev_buf d ++ dev_fut d = f ++ l ->
  serial_read 5 d = (f, mk_dev (skipn 5 (dev_buf d)) (dev_fut d)) /\
  skipn 5 (dev_buf d) ++ dev_fut d = l.
Proof.
  intros Hl Hb He. unfold serial_read. rewrite (proj2 (Nat.leb_le 5 _)) by exact Hb.
  destruct (firstn_skipn_frame f l Hl) as [E1 E2].
  rewrite <- He, firstn_app in E1. rewrite <- He, skipn_app in E2.
  replace (5 - length (dev_buf d))%nat with 0%nat in E1, E2 by lia.
  rewrite firstn_O, app_nil_r in E1. rewrite skipn_O in E2.
  rewrite E1. auto.
Qed.

(** X5: on a stream of valid frames, [read] ingests a prefix of the frames in order (the third byte of each), the unread bytes are the remaining frames, and it ends normally or with the exception of the failing ingest; it never calls [setup]. *)
Theorem read_ingests_valid_stream sfuel arr s d fs s' d' o
  (Hok : Forall frame_ok fs) (Hd : dev_buf d ++ dev_fut d = concat fs)
  (Hrun : read sfuel arr s d = (s', d', o)) :
  exists m r, (m <= length fs)%nat /\
    dev_buf d' ++ dev_fut d' = concat (skipn m fs) /\
    add_paquets 1%Q (map byte2 (firstn m fs)) s = (s', r) /\
    ((o = Done /\ r = inr tt) \/ exists e, o = Raised e /\ r = inl e).
Proof.
  revert s d fs Hok Hd Hrun. induction arr as [|k arr IH]; intros s d fs Hok Hd Hrun.
  - inversion Hrun; subst. exists 0%nat, (inr tt). cbn. repeat split; auto. lia.
  - cbn [read] in Hrun. rewrite <- (arrive_stream k d) in Hd.
    destruct (Nat.leb_spec 5 (inWaiting (arrive k d))) as [Hle|Hlt].
    + destruct fs as [|f fs'].
      * exfalso. cbn [concat] in Hd. apply (f_equal (@length Z)) in Hd.
        rewrite length_app in Hd. unfold inWaiting in Hle. cbn [length] in Hd. lia.
      * inversion Hok as [|? ? [Hl Hc] Hok']; subst.
        cbn [concat] in Hd.
        destruct (serial_read_prefix (arrive k d) f (concat fs') Hl Hle Hd) as [Hsr Hrest].
        rewrite Hsr, Hc in Hrun.
        destruct (add_paquet (nth 2 f 0) 1%Q s) as [s1 [e|[]]] eqn:H1.
        -- inversion Hrun; subst. exists 1%nat, (inl e). cbn [length skipn firstn map concat]. rewrite add_paquets_cons.
           unfold byte2. rewrite H1. repeat split; [lia | exact Hrest |]. eauto.
        -- destruct (IH s1 (mk_dev (skipn 5 (dev_buf (arrive k d))) (dev_fut (arrive k d))) fs' Hok' Hrest Hrun) as (m & r & Hm & Hd' & Ha & Ho).
           exists (S m), r. cbn [length skipn firstn map]. rewrite add_paquets_cons.
           unfold byte2 at 1. rewrite H1. repeat split; auto. lia.
    + exact (IH s _ fs Hok Hd Hrun).
Qed.

(** X6: a corrupted frame read by [read] re-initialises the session ([setup]): the recording so far is discarded, the buffered bytes are dropped and the next valid frame of the stream is consumed without being ingested. *)
Theorem read_resets_on_corrupt_frame sfuel k arr s d bad rest bads g fut
  (Hbuf : dev_buf (arrive k d) = bad ++ rest)
  (Hfut : dev_fut (arrive k d) = concat bads ++ g ++ fut)
  (Hbad : bad_frame bad) (Hb : Forall bad_frame bads) (Hg : frame_ok g)
  (Hs : (length bads < sfuel)%nat) :
  read sfuel (k :: arr) s d = read sfuel arr (reset_session s) (mk_dev [] fut).
Proof.
  destruct Hbad as [Hl Hc]. cbn [read].
  replace (arrive k d) with (mk_dev (bad ++ rest) (concat bads ++ g ++ fut))
    by (rewrite <- Hbuf, <- Hfut; destruct (arrive k d); reflexivity).
  unfold inWaiting. cbn [dev_buf]. rewrite length_app, Hl, (proj2 (Nat.leb_le 5 _)) by lia.
  rewrite serial_read_frame by exact Hl. rewrite Hc.
  replace sfuel with (length bads + S (sfuel - length bads - 1))%nat by lia.
  unfold setup. rewrite synch_loop_skips by assumption. reflexivity.
Qed.

(** ** [waitBeat] *)

(** X7: [waitBeat] returns normally only if [triggers] exists and one of its last two entries is nonzero, and [stim] exists and is non-empty; it then sets the last entry of [stim] to 1 after exactly one ingest.  Since ingests never change [triggers], it otherwise never returns normally. *)
Theorem waitBeat_returns_only_on_beat arr s stim d log s' stim' d' log'
  (Hrun : waitBeat arr s stim d log = (s', stim', d', log', Done)) :
  exists tr st v, triggers s = Some tr /\ any_last_two tr = true /\
    stim = Some st /\ st <> [] /\ stim' = Some (removelast st ++ [1]) /\
    add_paquet v 1%Q s = (s', inr tt).
Proof.
  revert s d log Hrun. induction arr as [|k arr IH]; intros s d log Hrun.
  - discriminate.
  - cbn [waitBeat] in Hrun.
    destruct (Nat.leb 5 (inWaiting (arrive k d))); [|exact (IH _ _ _ Hrun)].
    destruct (serial_read 5 (arrive k d)) as [p d1].
    destruct (check p); [|exact (IH _ _ _ Hrun)].
    destruct (add_paquet (nth 2 p 0) 1%Q s) as [s1 [e|[]]] eqn:H1; [discriminate|].
    pose proof (proj1 (proj2 (proj2 (proj2 (proj2 (proj2 (proj2 (proj2
      (add_paquet_effect _ _ _ _ H1))))))))) as Htr.
    destruct (triggers s1) as [tr|] eqn:Ht1; [|discriminate].
    destruct (any_last_two tr) eqn:Ha.
    + destruct stim as [[|x st]|]; try discriminate.
      inversion Hrun; subst.
      exists tr, (x :: st), (nth 2 p 0). repeat split; auto. discriminate.
    + destruct (IH _ _ _ Hrun) as (tr' & _ & _ & Ht' & Ha' & _).
      pose proof (add_paquet_effect _ _ _ _ H1) as E.
      congruence.
Qed.

(** ** The times vector *)

(** X8: in every reachable session, [times[k]] is [k / sfreq]. *)
Theorem reachable_times s (Hr : reachable s) :
  forall k, (k < length (times s))%nat ->
  (nth k (times s) 0 == inject_Z (Z.of_nat k) / inject_Z (sfreq s))%Q.
Proof.
  induction Hr as [sf ch | s v w s' Hr IH H | s Hr IH]; intros k Hk.
  - cbn in Hk. lia.
  - destruct (add_paquet_effect _ _ _ _ H)
      as (_ & _ & _ & _ & Hf & _ & _ & _ & Ht & _).
    rewrite Hf. rewrite Ht in Hk |- *.
    destruct (times s) as [|t0 ts] eqn:E.
    + cbn in Hk. destruct k as [|k]; [|lia].
      cbn [nth]. unfold Qeq, Qdiv, Qmult. cbn. reflexivity.
    + rewrite length_app in Hk. cbn [length] in Hk.
      destruct (Nat.eq_dec k (length (t0 :: ts))) as [->|Hne].
      * rewrite app_nth2, Nat.sub_diag by lia. reflexivity.
      * rewrite app_nth1 by (cbn [length] in *; lia). apply IH.
        cbn [length] in *; lia.
  - cbn in Hk. lia.
Qed.

(** ** The table of [plot_events] *)

Section PlotEvents.
Variables (L : list (string * string)) (tmin tmax : Q) (sf : Z).

Lemma events_loop_eq i idx df :
  events_loop L tmin tmax sf i idx df =
  match idx with
  | [] => inr df
  | _ :: _ =>
      match dict_get (str_nat (S i)) L with
      | None => inl (PKeyError (str_nat (S i)))
      | Some label => inr (df ++ map (row_of sf tmin tmax label i) idx)
      end
  end.
Proof.
  revert df. induction idx as [|e idx IH]; intro df; [reflexivity|].
  cbn [events_loop]. destruct (dict_get (str_nat (S i)) L) as [label|] eqn:E;
    [|reflexivity].
  rewrite IH. destruct idx as [|e' idx']; [reflexivity|].
  rewrite <- app_assoc. reflexivity.
Qed.

Lemma rows_rel label i idx :
  dict_get (str_nat (S i)) L = Some label ->
  Forall2 (row_rel L tmin tmax sf) (map (row_of sf tmin tmax label i) idx) (map (pair i) idx).
Proof.
  intro E. induction idx as [|x xs IH]; constructor; [|exact IH].
  unfold row_rel, row_of; cbn. repeat split; auto.
Qed.

Lemma conditions_loop_rows i tidx df df' :
  conditions_loop L tmin tmax sf i tidx df = inr df' ->
  exists rows, df' = df ++ rows /\ Forall2 (row_rel L tmin tmax sf) rows (flat_events_from i tidx).
Proof.
  revert i df. induction tidx as [|idx tidx IH]; intros i df H.
  - inversion H; subst. exists []. rewrite app_nil_r. auto.
  - cbn [conditions_loop] in H. rewrite events_loop_eq in H.
    destruct idx as [|e idx'].
    + destruct (IH _ _ H) as (rows & -> & Hr). exists rows. auto.
    + destruct (dict_get (str_nat (S i)) L) as [label|] eqn:E; [|discriminate].
      destruct (IH _ _ H) as (rows & -> & Hr).
      exists (map (row_of sf tmin tmax label i) (e :: idx') ++ rows).
      rewrite app_assoc. split; [reflexivity|].
      cbn [flat_events_from]. apply Forall2_app; [|exact Hr].
      apply rows_rel. exact E.
Qed.

Lemma flat_events_length i tidx : length (flat_events_from i tidx) = length (concat tidx).
Proof.
  revert i. induction tidx as [|idx tidx IH]; intro i; [reflexivity|].
  cbn. rewrite !length_app, length_map, IH. reflexivity.
Qed.

Lemma conditions_loop_ok i tidx df :
  (exists df', conditions_loop L tmin tmax sf i tidx df = inr df') <->
  (forall j idx, nth_error tidx j = Some idx -> idx <> [] ->
     dict_get (str_nat (S (i + j))) L <> None).
Proof.
  revert i df. induction tidx as [|idx tidx IH]; intros i df.
  - split; [intros _ j idx H; destruct j; discriminate | intros _; eexists; reflexivity].
  - cbn [conditions_loop]. rewrite events_loop_eq. split.
    + intros [df' H] j idx0 Hj Hne.
      destruct j as [|j].
      * cbn in Hj. inversion Hj; subst. destruct idx0 as [|e idx']; [congruence|].
        rewrite Nat.add_0_r. destruct (dict_get (str_nat (S i)) L); discriminate.
      * cbn in Hj. rewrite Nat.add_succ_r.
        destruct idx as [|e idx'].
        -- exact (proj1 (IH (S i) df) (ex_intro _ df' H) j idx0 Hj Hne).
        -- destruct (dict_get (str_nat (S i)) L); [|discriminate].
           exact (proj1 (IH (S i) _) (ex_intro _ df' H) j idx0 Hj Hne).
    + intro H.
      assert (Ht : forall j idx0, nth_error tidx j = Some idx0 -> idx0 <> [] ->
                 dict_get (str_nat (S (S i + j))) L <> None).
      { intros j idx0 Hj Hne. rewrite <- Nat.add_succ_r. exact (H (S j) idx0 Hj Hne). }
      destruct idx as [|e idx'].
      * exact (proj2 (IH (S i) df) Ht).
      * specialize (H 0%nat (e :: idx') eq_refl ltac:(discriminate)).
        rewrite Nat.add_0_r in H.
        destruct (dict_get (str_nat (S i)) L); [|congruence].
        exact (proj2 (IH (S i) _) Ht).
Qed.

Lemma conditions_loop_keyerror i tidx df e :
  conditions_loop L tmin tmax sf i tidx df = inl e -> exists key, e = PKeyError key.
Proof.
  revert i df. induction tidx as [|idx tidx IH]; intros i df H; [discriminate|].
  cbn [conditions_loop] in H. rewrite events_loop_eq in H.
  destruct idx as [|x idx']; [exact (IH _ _ H)|].
  destruct (dict_get (str_nat (S i)) L); [exact (IH _ _ H)|].
  inversion H; eauto.
Qed.

End PlotEvents.

(** X9: the table built by [plot_events] from [triggers_idx] has one row per event, in the order of the conditions and then of the events, with [trigger = event / sfreq], [tmin] and [tmax] shifted from it, the label of its condition and the colour index of the condition. *)
Theorem plot_events_rows trig tidx L tmin tmax sf df (Hsf : sf <> 0)
  (H : plot_events_df trig (Some tidx) L tmin tmax sf = inr df) :
  Forall2 (fun r p =>
    row_trigger r = (inject_Z (snd p) / inject_Z sf)%Q /\
    row_tmin r = (row_trigger r + tmin)%Q /\
    row_tmax r = (row_trigger r + tmax)%Q /\
    dict_get (str_nat (S (fst p))) L = Some (row_label r) /\
    row_color r = fst p) df (flat_events_from 0 tidx).
Proof.
  unfold plot_events_df in H.
  destruct (conditions_loop L tmin tmax sf 0 tidx []) as [e|df'] eqn:E; [discriminate|].
  destruct (conditions_loop_rows L tmin tmax sf _ _ _ _ E) as (rows & -> & Hr).
  destruct rows as [|r rows]; [discriminate|]. inversion H; subst. exact Hr.
Qed.

(** X10: [plot_events] raises [ValueError] without triggers; given [triggers_idx] it builds its table exactly when there is at least one event and every condition with events has a label, and otherwise raises [KeyError]. *)
Theorem plot_events_errors L tmin tmax sf (Hsf : sf <> 0) :
  plot_events_df None None L tmin tmax sf = inl PValueError /\
  (forall trig tidx,
    (exists df, plot_events_df trig (Some tidx) L tmin tmax sf = inr df) <->
    (concat tidx <> [] /\
     forall i idx, nth_error tidx i = Some idx -> idx <> [] ->
       dict_get (str_nat (S i)) L <> None)) /\
  (forall trig tidx e, plot_events_df trig (Some tidx) L tmin tmax sf = inl e ->
     exists key, e = PKeyError key).
Proof.
  split; [reflexivity|]. split.
  2:{ intros trig tidx e H. unfold plot_events_df in H.
      destruct (conditions_loop L tmin tmax sf 0 tidx []) as [e'|[|r rows]] eqn:E;
        inversion H; subst; [|eauto].
      exact (conditions_loop_keyerror L tmin tmax sf _ _ _ _ E). }
  intros trig tidx. unfold plot_events_df.
  pose proof (conditions_loop_ok L tmin tmax sf 0 tidx []) as Hok.
  destruct (conditions_loop L tmin tmax sf 0 tidx []) as [e|df'] eqn:E.
  - split; [intros [df H]; discriminate|]. intros [_ H].
    destruct (proj2 Hok H) as [df' H']. discriminate.
  - destruct (conditions_loop_rows L tmin tmax sf _ _ _ _ E) as (rows & -> & Hr).
    apply Forall2_length in Hr. rewrite flat_events_length in Hr.
    cbn [app] in *. split.
    + intros [df H]. split.
      * intro Hc. rewrite Hc in Hr. destruct rows; [discriminate | cbn in Hr; lia].
      * apply Hok. eauto.
    + intros [Hc _]. destruct rows as [|r rows]; [|eauto].
      exfalso. apply Hc. destruct (concat tidx); [reflexivity | cbn in Hr; lia].
Qed.

(** X11: a single trigger array is one condition: its events are the indices of the nonzero entries, all with the label of condition 1; an array of zeros raises [KeyError]. *)
Theorem plot_events_single_array a L label tmin tmax sf (Hsf : sf <> 0)
  (Hl : dict_get "1"%string L = Some label) :
  plot_events_df (Some (TrigArray a)) None L tmin tmax sf =
  match np_where a with
  | [] => inl (PKeyError "tmin"%string)
  | idx => inr (map (fun event =>
      mk_row (inject_Z event / inject_Z sf + tmin)%Q (inject_Z event / inject_Z sf)%Q
        (inject_Z event / inject_Z sf + tmax)%Q label 0) idx)
  end.
Proof.
  unfold plot_events_df. cbn [conditions_loop]. rewrite events_loop_eq.
  destruct (np_where a) as [|e idx]; [reflexivity|].
  change (str_nat 1) with "1"%string. rewrite Hl. reflexivity.
Qed.

(** ** Evaluations of the theorems above *)


Lemma readInWaiting_stop_raises_witness :
  readInWaiting 2 true (Oximeter_new 75 None)
    (mk_dev (concat [[1; 10; 200; 0; 211]] ++ [1; 10; 200; 0; 212] ++ [3]) [])
    [] =
  (fst (add_paquets 1%Q [200] (Oximeter_new 75 None)), mk_dev [3] [], [],
   Raised ValueError).
Proof.
  apply readInWaiting_stop_raises.
  - repeat constructor.
  - split; reflexivity.
  - cbn; lia.
  - vm_compute. reflexivity.
Defined.

Lemma setup_skips_corrupt_frames_witness :
  setup 2 demo_session (mk_dev [4; 4]
    (concat [[1; 10; 200; 0; 212]] ++ [1; 10; 200; 0; 211] ++ [9]))
  = (reset_session demo_session, mk_dev [] [9], Done).
Proof.
  apply (setup_skips_corrupt_frames 0 demo_session [4; 4] [[1; 10; 200; 0; 212]]).
  - repeat constructor.
  - split; reflexivity.
Defined.

Lemma readInWaiting_resynchronises_witness :
  readInWaiting 4 false (set_triggers (Oximeter_new 75 None) (Some [0; 0]))
    (mk_dev (concat [[1; 10; 200; 0; 211]] ++ [1; 10; 200; 0; 212] ++ [3])
            (concat [] ++ [1; 10; 90; 0; 101] ++ [5]))
    [] =
  (set_triggers (fst (add_paquets 1%Q [200]
      (set_triggers (Oximeter_new 75 None) (Some [0; 0]))))
     (Some (removelast [0; 0] ++ [-1])),
   mk_dev [] [5], [] ++ ["Synch error"%string], Done).
Proof.
  apply readInWaiting_resynchronises.
  - reflexivity.
  - discriminate.
  - repeat constructor.
  - split; reflexivity.
  - constructor.
  - split; reflexivity.
  - cbn; lia.
  - vm_compute. reflexivity.
Defined.

Lemma read_ingests_valid_stream_witness :
  exists m r, (m <= length valid_stream)%nat /\
    dev_buf (snd (fst read_demo)) ++ dev_fut (snd (fst read_demo)) =
      concat (skipn m valid_stream) /\
    add_paquets 1%Q (map byte2 (firstn m valid_stream)) (Oximeter_new 75 None) =
      (fst (fst read_demo), r) /\
    ((snd read_demo = Done /\ r = inr tt) \/
     exists e, snd read_demo = Raised e /\ r = inl e).
Proof.
  apply (read_ingests_valid_stream 2 [3; 4; 1]%nat (Oximeter_new 75 None)
    (mk_dev [] (concat valid_stream))).
  - repeat constructor.
  - reflexivity.
  - vm_compute. reflexivity.
Defined.

Lemma read_resets_on_corrupt_frame_witness :
  read 2 [5; 5]%nat demo_session (mk_dev [1; 10] [200; 0; 212; 8; 8; 1; 10; 90; 0; 101; 6])
  = read 2 [5%nat] (reset_session demo_session) (mk_dev [] [6]).
Proof.
  apply (read_resets_on_corrupt_frame 2 5 [5%nat] demo_session
    (mk_dev [1; 10] [200; 0; 212; 8; 8; 1; 10; 90; 0; 101; 6])
    [1; 10; 200; 0; 212] [8; 8] [] [1; 10; 90; 0; 101] [6]).
  - reflexivity.
  - reflexivity.
  - split; reflexivity.
  - constructor.
  - split; reflexivity.
  - cbn; lia.
Defined.

Lemma waitBeat_returns_only_on_beat_witness :
  exists tr st v, triggers (set_triggers (Oximeter_new 75 None) (Some [0; 1])) = Some tr /\
    any_last_two tr = true /\ Some [0; 0] = Some st /\ st <> [] /\
    Some [0; 1] = Some (removelast st ++ [1]) /\
    add_paquet v 1%Q (set_triggers (Oximeter_new 75 None) (Some [0; 1])) =
      (fst (add_paquet 200 1%Q (set_triggers (Oximeter_new 75 None) (Some [0; 1]))),
       inr tt).
Proof.
  apply (waitBeat_returns_only_on_beat [5%nat] _ _ (mk_dev [] [1; 10; 200; 0; 211]) []
    _ _ (mk_dev [] []) []).
  vm_compute. reflexivity.
Defined.

Lemma reachable_times_witness :
  (nth 17 (times wave_session) 0 == inject_Z (Z.of_nat 17) / inject_Z (sfreq wave_session))%Q.
Proof.
  apply (reachable_times wave_session wave_session_reachable 17).
  vm_compute. lia.
Defined.

Lemma plot_events_rows_witness :
  Forall2 (fun r p =>
    row_trigger r = (inject_Z (snd p) / inject_Z 1000)%Q /\
    row_tmin r = (row_trigger r + -1)%Q /\
    row_tmax r = (row_trigger r + 10)%Q /\
    dict_get (str_nat (S (fst p))) [("1", "a"); ("3", "b")]%string = Some (row_label r) /\
    row_color r = fst p) rows_demo (flat_events_from 0 [[10]; []; [20]]).
Proof.
  apply (plot_events_rows None [[10]; []; [20]]).
  - discriminate.
  - vm_compute. reflexivity.
Defined.

Lemma plot_events_errors_witness :
  plot_events_df None None default_events_labels (-1) 10 1000 = inl PValueError /\
  (forall trig tidx,
    (exists df, plot_events_df trig (Some tidx) default_events_labels (-1) 10 1000 = inr df) <->
    (concat tidx <> [] /\
     forall i idx, nth_error tidx i = Some idx -> idx <> [] ->
       dict_get (str_nat (S i)) default_events_labels <> None)) /\
  (forall trig tidx e,
     plot_events_df trig (Some tidx) default_events_labels (-1) 10 1000 = inl e ->
     exists key, e = PKeyError key).
Proof.
  apply plot_events_errors. discriminate.
Defined.

Lemma plot_events_single_array_witness :
  plot_events_df (Some (TrigArray [0; 1; 0; 1])) None default_events_labels (-1) 10 1000 =
  inr (map (fun event =>
      mk_row (inject_Z event / inject_Z 1000 + -1)%Q (inject_Z event / inject_Z 1000)%Q
        (inject_Z event / inject_Z 1000 + 10)%Q "Event - 1"%string 0) [1; 3]).
Proof.
  apply (plot_events_single_array [0; 1; 0; 1] default_events_labels).
  - discriminate.
  - reflexivity.
Defined.
